(** * Vector3D: three-component vectors over a numeric element type

    A shallow embedding of [vector3d.h].  The class template
    [Vector3D<Type>] becomes a record polymorphic in its element type, the
    operations an element type must offer become a type class, and the two
    element types the development instantiates are

    - [int]: a 32-bit two's complement integer, carried by [Z] with the
      wrap-around of the machine written out (signed overflow is undefined
      in C++; the wrap-around is what the usual targets compute);
    - [double]: IEEE 754 binary64, carried by [spec_float] with the
      operations of the standard library's executable specification
      (round to nearest, ties to even; a NaN carries no payload).

    The text streams of [<iostream>] are modelled by the characters they
    hold and their state bits. *)

From Stdlib Require Import ZArith Lia Bool List Ascii String.
From Stdlib Require Import Setoid Morphisms.
From Stdlib Require Import Floats.SpecFloat.
Import ListNotations.
Local Open Scope Z_scope.

(** ** The element type [double] *)

Module Double.

Definition prec : Z := 53.
Definition emax : Z := 1024.

Definition double : Type := spec_float.

Definition add : double -> double -> double := SFadd prec emax.
Definition sub : double -> double -> double := SFsub prec emax.
Definition mul : double -> double -> double := SFmul prec emax.
Definition div : double -> double -> double := SFdiv prec emax.
Definition sqrt : double -> double := SFsqrt prec emax.
Definition eqb : double -> double -> bool := SFeqb.

(** Conversion of an integer to the nearest double. *)
Definition of_Z (v : Z) : double := binary_normalize prec emax v 0 false.

(** The values that really are binary64 numbers: the mantissa of a
    finite one is in canonical form. *)
Definition valid (d : double) : bool := valid_binary prec emax d.

Definition is_nan (d : double) : bool :=
  match d with S754_nan => true | _ => false end.

Definition is_infinite (d : double) : bool :=
  match d with S754_infinity _ => true | _ => false end.

Definition is_zero (d : double) : bool :=
  match d with S754_zero _ => true | _ => false end.

(** The double [-1.0]. *)
Definition minus_one : double := of_Z (-1).

(** The exponent of the canonical form of a number with [v] as the sum
    of its exponent and its count of digits: [fexp] at precision 53,
    whose least exponent is -1074. *)
Definition fx (v : Z) : Z := Z.max (v - 53) (-1074).

(** [r] is [l] negated, the sign of a zero left aside. *)
Definition negated (l r : double) : Prop :=
  r = SFopp l \/ (is_zero l = true /\ is_zero r = true).

Definition pos_inf : double := S754_infinity false.
Definition neg_inf : double := S754_infinity true.
Definition nan : double := S754_nan.

End Double.

Abbreviation double := Double.double.

(** ** The element type [int] *)

Module Int.

Definition int : Type := Z.

Definition modulus : Z := 2 ^ 32.
Definition half_modulus : Z := 2 ^ 31.
Definition min_signed : Z := - half_modulus.
Definition max_signed : Z := half_modulus - 1.

Definition in_range (v : Z) : Prop := min_signed <= v <= max_signed.

(** The representative of [v] modulo [2^32] in the signed range. *)
Definition wrap (v : Z) : int := (v + half_modulus) mod modulus - half_modulus.

Definition add (a b : int) : int := wrap (a + b).
Definition sub (a b : int) : int := wrap (a - b).
Definition mul (a b : int) : int := wrap (a * b).
Definition eqb (a b : int) : bool := Z.eqb a b.

(** Every [int] is a double exactly: it has at most 32 significant bits. *)
Definition to_double (a : int) : double := Double.of_Z a.

End Int.

Abbreviation int := Int.int.

(** ** What the template asks of its element type

    [of_int] is the conversion of an [int] literal to the element type
    (the [0] of the default constructor, a scalar such as [-1]);
    [to_double] is the implicit conversion applied where a function
    declared to return [double] returns a value of the element type, and
    where [sqrt] is applied to one.

    The arithmetic of the class is closed: an operation on two values of
    the element type gives a value of the element type.  This is the
    arithmetic of the source at [int] and at [double], the two instances.
    At an element type narrower than [int] the operands are promoted first;
    that case is embedded apart, further down, for [unsigned char]. *)

Class Numeric (T : Type) : Type := {
  of_int : Z -> T;
  add : T -> T -> T;
  sub : T -> T -> T;
  mul : T -> T -> T;
  eqb : T -> T -> bool;
  to_double : T -> double
}.

(** Division is kept apart: on [int] a zero divisor is undefined behaviour,
    and none of the integer instantiations below divides. *)
Class Divisible (T : Type) : Type := {
  div : T -> T -> T
}.

#[export] Instance Numeric_int : Numeric int := {|
  of_int := Int.wrap;
  add := Int.add;
  sub := Int.sub;
  mul := Int.mul;
  eqb := Int.eqb;
  to_double := Int.to_double
|}.

#[export] Instance Numeric_double : Numeric double := {|
  of_int := Double.of_Z;
  add := Double.add;
  sub := Double.sub;
  mul := Double.mul;
  eqb := Double.eqb;
  to_double := fun d => d
|}.

#[export] Instance Divisible_double : Divisible double := {|
  div := Double.div
|}.

(** ** The class template *)

Record Vector3D (T : Type) : Type := mkVector3D {
  m_x : T;
  m_y : T;
  m_z : T
}.

Arguments mkVector3D {T} _ _ _.
Arguments m_x {T} _.
Arguments m_y {T} _.
Arguments m_z {T} _.

Section Members.

Context {T : Type} `{Numeric T}.

(** [Vector3D() : m_x(0), m_y(0), m_z(0)] *)
Definition Vector3D_default : Vector3D T :=
  mkVector3D (of_int 0) (of_int 0) (of_int 0).

Definition x (A : Vector3D T) : T := m_x A.
Definition y (A : Vector3D T) : T := m_y A.
Definition z (A : Vector3D T) : T := m_z A.

(** The setters assign one member of the object; the object after the
    call is returned. *)
Definition setX (A : Vector3D T) (v : T) : Vector3D T :=
  mkVector3D v (m_y A) (m_z A).
Definition setY (A : Vector3D T) (v : T) : Vector3D T :=
  mkVector3D (m_x A) v (m_z A).
Definition setZ (A : Vector3D T) (v : T) : Vector3D T :=
  mkVector3D (m_x A) (m_y A) v.

(** [sqrt(m_x * m_x + m_y * m_y + m_z * m_z)]: the sum is computed in the
    element type and converted for [sqrt]. *)
Definition module (A : Vector3D T) : double :=
  Double.sqrt
    (to_double
       (add (add (mul (m_x A) (m_x A)) (mul (m_y A) (m_y A)))
            (mul (m_z A) (m_z A)))).

End Members.

(** ** The free operators and functions

    At [double] every operation is rounded on its own, as the source
    spells it.  A compiler may contract a product and the sum or
    difference that follows into one fused operation, which rounds once;
    the value of [a*b - c*d] or of a sum of products is then another
    double. *)

Section FreeFunctions.

Context {T : Type} `{Numeric T}.

Definition operator_plus (A B : Vector3D T) : Vector3D T :=
  mkVector3D (add (x A) (x B)) (add (y A) (y B)) (add (z A) (z B)).

Definition operator_minus (A B : Vector3D T) : Vector3D T :=
  mkVector3D (sub (x A) (x B)) (sub (y A) (y B)) (sub (z A) (z B)).

(** [operator*(const Type s, const Vector3D<Type>& A)] *)
Definition operator_mul_sv (s : T) (A : Vector3D T) : Vector3D T :=
  mkVector3D (mul s (x A)) (mul s (y A)) (mul s (z A)).

(** [operator*(const Vector3D<Type>& A, const Type s)] *)
Definition operator_mul_vs (A : Vector3D T) (s : T) : Vector3D T :=
  mkVector3D (mul s (x A)) (mul s (y A)) (mul s (z A)).

(** [operator*(const Vector3D<Type>& A, const Vector3D<Type>& B)] *)
Definition operator_mul_vv (A B : Vector3D T) : Vector3D T :=
  mkVector3D (mul (x A) (x B)) (mul (y A) (y B)) (mul (z A) (z B)).

Definition operator_eq (A B : Vector3D T) : bool :=
  eqb (x A) (x B) && eqb (y A) (y B) && eqb (z A) (z B).

Definition scalarProduct (A B : Vector3D T) : double :=
  let C := operator_mul_vv A B in
  to_double (add (add (x C) (y C)) (z C)).

Definition crossProduct (A B : Vector3D T) : Vector3D T :=
  mkVector3D (sub (mul (y A) (z B)) (mul (z A) (y B)))
             (sub (mul (z A) (x B)) (mul (x A) (z B)))
             (sub (mul (x A) (y B)) (mul (y A) (x B))).

Definition distance (A B : Vector3D T) : double :=
  Double.sqrt
    (to_double
       (add (add (mul (sub (x A) (x B)) (sub (x A) (x B)))
                 (mul (sub (y A) (y B)) (sub (y A) (y B))))
            (mul (sub (z A) (z B)) (sub (z A) (z B))))).

End FreeFunctions.

Section Division.

Context {T : Type} `{Divisible T}.

(** [operator/(const Vector3D<Type>& A, const Type s)] *)
Definition operator_div_vs (A : Vector3D T) (s : T) : Vector3D T :=
  mkVector3D (div (m_x A) s) (div (m_y A) s) (div (m_z A) s).

(** [operator/(const Vector3D<Type>& A, const Vector3D<Type>& B)] *)
Definition operator_div_vv (A B : Vector3D T) : Vector3D T :=
  mkVector3D (div (m_x A) (m_x B)) (div (m_y A) (m_y B))
             (div (m_z A) (m_z B)).

End Division.

(** ** [direction]

    The member returns [*this / this->module()], declared as a
    [Vector3D<double>] whatever the element type: it divides a
    [Vector3D<Type>] by the [double] that [module] returns.  The only
    [operator/] that takes a scalar is
    [operator/(const Vector3D<Type>&, const Type)], with the scalar of the
    element type and a [Vector3D<Type>] for result, so the body is
    well-formed at [Type = double] only; that is the instance embedded
    here.  At any other element type a use of the member does not
    compile. *)

Definition direction (A : Vector3D double) : Vector3D double :=
  operator_div_vs A (module A).

(** ** The element type [unsigned char]

    An element type narrower than [int] is promoted: in
    [A.x() - B.x()] or [m_x * m_x] the operands become [int]s and the
    whole expression is computed in [int]; the result is narrowed to the
    element type, modulo 256, only where it initialises a component of a
    [Vector3D<unsigned char>].  So [operator-] narrows each difference,
    while [module] and [distance], which hand one [int] expression to
    [sqrt], are those of the promoted vectors. *)

Module UChar.

Definition uchar : Type := Z.

Definition in_range (v : Z) : Prop := 0 <= v <= 255.

(** Conversion of an [int] to [unsigned char]. *)
Definition narrow (v : int) : uchar := v mod 256.

(** Integral promotion of the components: the values are kept. *)
Definition promote (A : Vector3D uchar) : Vector3D int :=
  mkVector3D (m_x A) (m_y A) (m_z A).

Definition narrow_vector (V : Vector3D int) : Vector3D uchar :=
  mkVector3D (narrow (m_x V)) (narrow (m_y V)) (narrow (m_z V)).

End UChar.

(** [operator-], [module] and [distance] at [Type = unsigned char]. *)
Definition uchar_operator_minus (A B : Vector3D UChar.uchar)
  : Vector3D UChar.uchar :=
  UChar.narrow_vector (operator_minus (UChar.promote A) (UChar.promote B)).

Definition uchar_module (A : Vector3D UChar.uchar) : double :=
  module (UChar.promote A).

Definition uchar_distance (A B : Vector3D UChar.uchar) : double :=
  distance (UChar.promote A) (UChar.promote B).

(** ** Text streams

    An input stream is the sequence of characters still to be read, the
    two state bits the extractors set, and the classification of white
    space of the locale it is imbued with.  An output stream is the
    sequence of characters written to it.  Both have the formatting flags
    a stream starts with: decimal numbers, no padding, white space skipped
    before a field.  (The source names its input stream [is], which is not
    available as a name here; the embedding says [ins].)

    A stream also has an exception mask, empty when the stream is
    constructed: the state bits whose setting throws [ios_base::failure]
    out of the extractor that sets them.  The mask is kept apart from the
    state, as [iomask]; [istream] alone stands for a stream with the empty
    mask. *)

Record istream : Type := mk_istream {
  rdbuf : list ascii;
  failbit : bool;
  eofbit : bool;
  isspace : ascii -> bool
}.

Definition ostream : Type := list ascii.

Record iomask : Type := mk_iomask {
  throw_on_fail : bool;
  throw_on_eof : bool
}.

Definition no_exceptions : iomask := mk_iomask false false.

(** Whether the state an extraction has just set makes the stream throw. *)
Definition throws (m : iomask) (ins : istream) : bool :=
  (throw_on_fail m && failbit ins) || (throw_on_eof m && eofbit ins).

Definition good (ins : istream) : bool := negb (failbit ins) && negb (eofbit ins).

Definition code (c : ascii) : Z := Z.of_nat (nat_of_ascii c).

(** White space of the classic locale: space, and the controls from
    horizontal tab to carriage return. *)
Definition classic_space (c : ascii) : bool :=
  (code c =? 32) || ((9 <=? code c) && (code c <=? 13)).

Definition comma : ascii := ascii_of_nat 44.
Definition blank : ascii := ascii_of_nat 32.
Definition minus_sign : ascii := ascii_of_nat 45.
Definition plus_sign : ascii := ascii_of_nat 43.

Definition is_comma (c : ascii) : bool := code c =? 44.

(** A locale that also counts the comma as white space. *)
Definition comma_space (c : ascii) : bool := classic_space c || is_comma c.

Definition is_digit (c : ascii) : bool := (48 <=? code c) && (code c <=? 57).
Definition digit_val (c : ascii) : Z := code c - 48.
Definition digit_char (d : Z) : ascii := ascii_of_nat (Z.to_nat (48 + d)).

(** A stream in its initial state over the given text. *)
Definition istream_of (sp : ascii -> bool) (text : list ascii) : istream :=
  mk_istream text false false sp.

Definition at_end (s : list ascii) : bool :=
  match s with [] => true | _ :: _ => false end.

(** *** Formatted output of an [int]: decimal digits, a leading minus sign
    for a negative value, no padding. *)

Definition max_digits : nat := 10.

Fixpoint put_digits (fuel : nat) (n : Z) (acc : list ascii) : list ascii :=
  match fuel with
  | O => acc
  | S fuel' =>
      if n <? 10 then digit_char n :: acc
      else put_digits fuel' (n / 10) (digit_char (n mod 10) :: acc)
  end.

Definition put_int (v : int) : list ascii :=
  if v <? 0 then minus_sign :: put_digits max_digits (- v) []
  else put_digits max_digits v [].

(** *** Formatted input of an [int] *)

Fixpoint skipws (sp : ascii -> bool) (s : list ascii) : list ascii :=
  match s with
  | c :: s' => if sp c then skipws sp s' else s
  | [] => []
  end.

(** The longest prefix of digits, and what follows it. *)
Fixpoint span_digits (s : list ascii) : list ascii * list ascii :=
  match s with
  | c :: s' =>
      if is_digit c
      then let '(ds, rest) := span_digits s' in (c :: ds, rest)
      else ([], s)
  | [] => ([], [])
  end.

Definition digits_value (ds : list ascii) : Z :=
  fold_left (fun acc c => 10 * acc + digit_val c) ds 0.

(** The numeric field at the head of [s]: an optional sign and the digits
    that follow; [None] when there is no digit. *)
Definition num_get (s : list ascii) : option Z * list ascii :=
  let '(negative, s1) :=
    match s with
    | c :: s' =>
        if (code c =? 45) then (true, s')
        else if (code c =? 43) then (false, s')
        else (false, s)
    | [] => (false, s)
    end in
  let '(ds, rest) := span_digits s1 in
  match ds with
  | [] => (None, rest)
  | _ :: _ =>
      (Some (if negative then - digits_value ds else digits_value ds), rest)
  end.

(** [ins >> v] for an [int] object holding [v].  A stream that is not good
    only gets its fail bit set; white space is skipped; when the input ends
    there, fail and eof are set; in both cases the object is left as it
    was.  Otherwise the field is converted: no digit stores zero and sets
    the fail bit, a value out of range stores the nearest bound and sets
    the fail bit, and reaching the end of the input sets eof. *)
Definition extract_int (ins : istream) (v : int) : istream * int :=
  if negb (good ins) then (mk_istream (rdbuf ins) true (eofbit ins) (isspace ins), v)
  else
    match skipws (isspace ins) (rdbuf ins) with
    | [] => (mk_istream [] true true (isspace ins), v)
    | c :: s =>
        let '(r, rest) := num_get (c :: s) in
        let st (failed : bool) := mk_istream rest failed (at_end rest) (isspace ins) in
        match r with
        | None => (st true, 0)
        | Some n =>
            if n <? Int.min_signed then (st true, Int.min_signed)
            else if Int.max_signed <? n then (st true, Int.max_signed)
            else (st false, n)
        end
    end.

(** The inserter and the extractor of an element type. *)
Class Streamable (T : Type) : Type := {
  stream_insert : ostream -> T -> ostream;
  stream_extract : istream -> T -> istream * T
}.

#[export] Instance Streamable_int : Streamable int := {|
  stream_insert := fun os v => os ++ put_int v;
  stream_extract := extract_int
|}.

Section StreamOperators.

Context {T : Type} `{Numeric T} `{Streamable T}.

Definition separator : list ascii := [comma; blank].

(** [os << A.x() << ", " << A.y() << ", " << A.z()] *)
Definition operator_out (os : ostream) (A : Vector3D T) : ostream :=
  stream_insert
    (stream_insert (stream_insert os (x A) ++ separator) (y A) ++ separator)
    (z A).

(** [Type x,y,z; ins >> x >> y >> z; A.setX(x); A.setY(y); A.setZ(z);]
    The locals are not initialised: [x0], [y0] and [z0] are whatever they
    hold when the extraction starts. *)
Definition operator_in (ins : istream) (A : Vector3D T) (x0 y0 z0 : T)
  : istream * Vector3D T :=
  let '(is1, x1) := stream_extract ins x0 in
  let '(is2, y1) := stream_extract is1 y0 in
  let '(is3, z1) := stream_extract is2 z0 in
  (is3, setZ (setY (setX A x1) y1) z1).

(** What a call of the input operator comes to: it returns, or an
    exception leaves it; either way with the stream and the vector as they
    are then. *)
Inductive outcome : Type :=
| returned : istream -> Vector3D T -> outcome
| thrown : istream -> Vector3D T -> outcome.

(** The input operator on a stream with exception mask [m].  The source
    catches nothing: an exception thrown by one of the three extractions
    leaves the operator at once, before the setters. *)
Definition operator_in_masked (m : iomask) (ins : istream) (A : Vector3D T)
           (x0 y0 z0 : T) : outcome :=
  let '(is1, x1) := stream_extract ins x0 in
  if throws m is1 then thrown is1 A
  else
    let '(is2, y1) := stream_extract is1 y0 in
    if throws m is2 then thrown is2 A
    else
      let '(is3, z1) := stream_extract is2 z0 in
      if throws m is3 then thrown is3 A
      else returned is3 (setZ (setY (setX A x1) y1) z1).

End StreamOperators.

Arguments outcome T : clear implicits.
Arguments returned {T} _ _.
Arguments thrown {T} _ _.

(** Removal of the commas from a text. *)
Definition strip_commas (text : list ascii) : list ascii :=
  filter (fun c => negb (is_comma c)) text.

Definition text_of (s : string) : list ascii := list_ascii_of_string s.

(** ** Auxiliary notions used by the statements *)

(** A property of every component. *)
Definition Forall3D {T : Type} (P : T -> Prop) (A : Vector3D T) : Prop :=
  P (m_x A) /\ P (m_y A) /\ P (m_z A).

(** Two doubles that stand for the same number: both a NaN, or equal as
    [==] compares them (which takes the two zeros for equal). *)
Definition same_number (a b : double) : bool :=
  (Double.is_nan a && Double.is_nan b) || Double.eqb a b.

(** The same, component by component. *)
Definition same_numbers (L R : Vector3D double) : Prop :=
  same_number (m_x L) (m_x R) = true /\ same_number (m_y L) (m_y R) = true /\
  same_number (m_z L) (m_z R) = true.

(** A double that is not below zero: a NaN, or a number whose sign bit is
    clear (so not the negative zero either). *)
Definition nan_or_nonneg (d : double) : bool :=
  match d with
  | S754_nan => true
  | S754_zero s | S754_infinity s | S754_finite s _ _ => negb s
  end.

(** A double that is a number of finite size. *)
Definition is_finite (d : double) : bool :=
  match d with
  | S754_zero _ | S754_finite _ _ _ => true
  | _ => false
  end.

(** Components small enough for a sum of three products of them to stay
    inside [int]: [3 * 26754 * 26754 < 2^31]. *)
Definition small (v : Z) : Prop := -26754 <= v <= 26754.

(** The characters the output operator writes for a vector of [int]. *)
Definition output_char (c : ascii) : bool :=
  is_digit c || (code c =? 45) || (code c =? 44) || (code c =? 32).

(** The sum the scalar product computes on [int], before it is converted
    to [double]. *)
Definition int_dot (A B : Vector3D int) : int :=
  Int.add (Int.add (Int.mul (m_x A) (m_x B)) (Int.mul (m_y A) (m_y B)))
          (Int.mul (m_z A) (m_z B)).

(** Congruence modulo [2^32]. *)
Definition eqm (a b : Z) : Prop := a mod Int.modulus = b mod Int.modulus.

(** What may follow a numeric field: the end of the input, or a character
    that is not a digit. *)
Definition ends_field (rest : list ascii) : Prop :=
  match rest with
  | [] => True
  | c :: _ => is_digit c = false
  end.

(** The characters a locale must not count as white space for a number to
    be readable at all: the digits and the minus sign. *)
Definition keeps_numbers (sp : ascii -> bool) : Prop :=
  (forall c : ascii, is_digit c = true -> sp c = false) /\ sp minus_sign = false.


(** * Properties *)

(** ** Arithmetic of [int] *)

Module IntFacts.

Import Int.

Lemma modulus_eq : modulus = 4294967296.
Proof. reflexivity. Qed.

Lemma half_modulus_eq : half_modulus = 2147483648.
Proof. reflexivity. Qed.

Lemma wrap_in_range (v : Z) : in_range (wrap v).
Proof.
  unfold in_range, wrap, min_signed, max_signed.
  rewrite modulus_eq, half_modulus_eq.
  pose proof (Z.mod_pos_bound (v + 2147483648) 4294967296 ltac:(lia)).
  lia.
Qed.

Lemma wrap_small (v : Z) : in_range v -> wrap v = v.
Proof.
  unfold in_range, wrap, min_signed, max_signed.
  rewrite modulus_eq, half_modulus_eq. intros Hv.
  rewrite Z.mod_small by lia. lia.
Qed.

Lemma wrap_eqm (v : Z) : eqm (wrap v) v.
Proof.
  unfold eqm, wrap. rewrite modulus_eq, half_modulus_eq.
  rewrite Zminus_mod_idemp_l.
  f_equal. lia.
Qed.

Lemma eqm_wrap (a b : Z) : eqm a b -> wrap a = wrap b.
Proof.
  unfold eqm, wrap. rewrite modulus_eq, half_modulus_eq. intros Hab.
  f_equal.
  rewrite <- (Zplus_mod_idemp_l a), <- (Zplus_mod_idemp_l b), Hab.
  reflexivity.
Qed.

Lemma eqm_refl (a : Z) : eqm a a.
Proof. reflexivity. Qed.

Lemma eqm_sym (a b : Z) : eqm a b -> eqm b a.
Proof. unfold eqm. congruence. Qed.

Lemma eqm_trans (a b c : Z) : eqm a b -> eqm b c -> eqm a c.
Proof. unfold eqm. congruence. Qed.

Lemma eqm_add (a a' b b' : Z) : eqm a a' -> eqm b b' -> eqm (a + b) (a' + b').
Proof.
  unfold eqm. intros Ha Hb.
  rewrite (Zplus_mod a b), (Zplus_mod a' b'), Ha, Hb. reflexivity.
Qed.

Lemma eqm_sub (a a' b b' : Z) : eqm a a' -> eqm b b' -> eqm (a - b) (a' - b').
Proof.
  unfold eqm. intros Ha Hb.
  rewrite (Zminus_mod a b), (Zminus_mod a' b'), Ha, Hb. reflexivity.
Qed.

Lemma eqm_mul (a a' b b' : Z) : eqm a a' -> eqm b b' -> eqm (a * b) (a' * b').
Proof.
  unfold eqm. intros Ha Hb.
  rewrite (Zmult_mod a b), (Zmult_mod a' b'), Ha, Hb. reflexivity.
Qed.

Lemma int_add_comm (a b : int) : add a b = add b a.
Proof. unfold add. now rewrite Z.add_comm. Qed.

Lemma int_mul_comm (a b : int) : mul a b = mul b a.
Proof. unfold mul. now rewrite Z.mul_comm. Qed.

Lemma eqb_eq (a b : int) : eqb a b = true <-> a = b.
Proof. apply Z.eqb_eq. Qed.

Lemma eqb_refl (a : int) : eqb a a = true.
Proof. apply Z.eqb_refl. Qed.

(** Subtracting and adding back, with both steps wrapping. *)
Lemma sub_add (a b : int) : in_range a -> add (sub a b) b = a.
Proof.
  intros Ha. unfold add, sub.
  rewrite <- (wrap_small a Ha) at 2.
  apply eqm_wrap.
  apply eqm_trans with ((a - b) + b).
  - apply eqm_add; [apply wrap_eqm | apply eqm_refl].
  - replace (a - b + b) with a by lia. apply eqm_refl.
Qed.

(** The negated difference, as [-1 * (b - a)] computes it. *)
Lemma sub_anticomm (a b : int) : sub a b = mul (wrap (-1)) (sub b a).
Proof.
  unfold mul, sub. apply eqm_wrap.
  apply eqm_sym.
  apply eqm_trans with ((-1) * (b - a)).
  - apply eqm_mul; apply wrap_eqm.
  - replace (-1 * (b - a)) with (a - b) by lia. apply eqm_refl.
Qed.

End IntFacts.

(** ** Arithmetic of [double] *)

Module DoubleFacts.

Import Double.

Lemma double_mul_comm (a b : double) : mul a b = mul b a.
Proof.
  unfold mul.
  destruct a as [sa | sa | | sa ma ea], b as [sb | sb | | sb mb eb];
    cbn [SFmul]; try reflexivity;
    rewrite (xorb_comm sa sb); try reflexivity.
  now rewrite (Pos.mul_comm ma mb), (Z.add_comm ea eb).
Qed.

(** A NaN compares unequal to everything, itself included. *)
Lemma eqb_nan_l (d : double) : eqb nan d = false.
Proof. reflexivity. Qed.

Lemma eqb_nan_r (d : double) : eqb d nan = false.
Proof. now destruct d. Qed.

Lemma eqb_true_not_nan (a b : double) :
  eqb a b = true -> is_nan a = false /\ is_nan b = false.
Proof. destruct a, b; cbn; intros E; try discriminate; auto. Qed.

(** Division by a zero never traps: the quotient is a NaN or an
    infinity. *)
Lemma div_by_zero (a : double) (s : bool) :
  is_nan (div a (S754_zero s)) = true \/ is_infinite (div a (S754_zero s)) = true.
Proof. destruct a; cbn; auto. Qed.

(** *** Rounding: results are canonical, and negation commutes with it *)

Lemma digits2_pos_size (p : positive) : digits2_pos p = Pos.size p.
Proof. induction p; cbn; congruence. Qed.

Lemma Zdigits2_log2 (p : positive) : Zdigits2 (Zpos p) = Z.log2 (Zpos p) + 1.
Proof.
  cbn [Zdigits2]. rewrite digits2_pos_size.
  destruct p; cbn [Z.log2 Pos.size]; lia.
Qed.

Lemma shr_1_m (mrs : shr_record) :
  0 <= shr_m mrs -> shr_m (shr_1 mrs) = Z.div2 (shr_m mrs).
Proof.
  destruct mrs as [m r s]. cbn [shr_m]. intros Hm.
  destruct m as [| [p | p |] | p]; cbn; try reflexivity; lia.
Qed.

Lemma iter_shr_1_m (p : positive) :
  forall mrs : shr_record,
    0 <= shr_m mrs ->
    shr_m (iter_pos shr_1 p mrs) = Z.shiftr (shr_m mrs) (Zpos p).
Proof.
  induction p as [p IH | p IH |]; intros mrs Hm; cbn [iter_pos].
  - assert (H1 : 0 <= shr_m (shr_1 mrs)).
    { rewrite shr_1_m by assumption. rewrite Z.div2_nonneg. assumption. }
    assert (H2 : 0 <= shr_m (iter_pos shr_1 p (shr_1 mrs))).
    { rewrite IH by assumption. apply Z.shiftr_nonneg. assumption. }
    rewrite IH, IH, shr_1_m by assumption.
    rewrite Z.div2_spec, !Z.shiftr_shiftr by lia.
    f_equal. lia.
  - assert (H2 : 0 <= shr_m (iter_pos shr_1 p mrs)).
    { rewrite IH by assumption. apply Z.shiftr_nonneg. assumption. }
    rewrite IH, IH by assumption.
    rewrite !Z.shiftr_shiftr by lia. f_equal. lia.
  - rewrite shr_1_m by assumption. now rewrite Z.div2_spec.
Qed.

Lemma fexp_fx (v : Z) : fexp prec emax v = fx v.
Proof. reflexivity. Qed.

Lemma Zdigits2_pos (m : Z) : 0 < m -> Zdigits2 m = Z.log2 m + 1.
Proof. destruct m as [| p | p]; try lia. intros _. apply Zdigits2_log2. Qed.

Lemma log2_shiftr_pos (m n : Z) :
  0 < m -> 0 <= n -> 0 < Z.shiftr m n -> Z.log2 (Z.shiftr m n) = Z.log2 m - n.
Proof.
  intros Hm Hn Hs.
  rewrite Z.log2_shiftr by assumption.
  destruct (Z.lt_ge_cases (Z.log2 m) n) as [Hlt | Hge]; [| lia].
  rewrite (Z.shiftr_eq_0 m n) in Hs by lia. lia.
Qed.

Lemma shiftr_zero_log2 (m n : Z) :
  0 < m -> Z.shiftr m n = 0 -> Z.log2 m < n.
Proof. intros Hm Hs. apply Z.shiftr_eq_0_iff in Hs. lia. Qed.

Lemma shiftr_nonneg' (m n : Z) : 0 <= m -> 0 <= Z.shiftr m n.
Proof. intros. now apply Z.shiftr_nonneg. Qed.

Lemma log2_succ_cases (m : Z) :
  0 < m ->
  Z.log2 (m + 1) = Z.log2 m \/
  (Z.log2 (m + 1) = Z.log2 m + 1 /\ m + 1 = 2 ^ (Z.log2 m + 1)).
Proof.
  intros Hm. destruct (Z.log2_succ_or m) as [Hs | Hs].
  - right. fold (Z.succ m). split; [unfold Z.succ in *; lia |].
    destruct (Z.log2_eq_succ_is_pow2 m Hs) as [b Hb].
    assert (Hb0 : 0 <= b).
    { destruct (Z.lt_ge_cases b 0) as [Hneg | ]; [| assumption].
      rewrite Z.pow_neg_r in Hb by assumption. unfold Z.succ in Hb. lia. }
    assert (Z.log2 (Z.succ m) = b) by (rewrite Hb; now apply Z.log2_pow2).
    unfold Z.succ in *. replace (Z.log2 m + 1) with b by lia. assumption.
  - left. exact Hs.
Qed.

Lemma canon_round (m e m2 : Z) :
  0 < m ->
  e <= fx (Zdigits2 m + e) ->
  m2 = Z.shiftr m (fx (Zdigits2 m + e) - e) \/
  m2 = Z.shiftr m (fx (Zdigits2 m + e) - e) + 1 ->
  0 <= fx (Zdigits2 m2 + fx (Zdigits2 m + e)) - fx (Zdigits2 m + e) /\
  (let e1 := fx (Zdigits2 m + e) in
   let n2 := fx (Zdigits2 m2 + e1) - e1 in
   let m3 := Z.shiftr m2 n2 in
   m3 = 0 \/ (0 < m3 /\ fx (Zdigits2 m3 + (e1 + n2)) = e1 + n2)).
Proof.
  intros Hm He Hm2. cbv zeta.
  rewrite (Zdigits2_pos m Hm) in *.
  set (e1 := fx (Z.log2 m + 1 + e)) in *.
  set (n := e1 - e) in *.
  assert (Hn : 0 <= n) by (unfold n; lia).
  assert (Hl : 0 <= Z.log2 m) by apply Z.log2_nonneg.
  pose proof (shiftr_nonneg' m n ltac:(lia)) as Hm1.
  set (m1 := Z.shiftr m n) in *.
  assert (Hm1cases : m1 = 0 \/ 0 < m1) by lia.
  (* facts on m1 *)
  assert (Hd1 : 0 < m1 -> Z.log2 m1 = Z.log2 m - n).
  { intros Hp. unfold m1. apply log2_shiftr_pos; try assumption. }
  assert (Hz1 : m1 = 0 -> Z.log2 m < n).
  { intros Hz. apply shiftr_zero_log2; assumption. }
  assert (He1 : e1 = fx (Z.log2 m + 1 + e)) by reflexivity.
  unfold fx in He1.
  destruct Hm2 as [-> | ->].
  - (* no increment *)
    destruct Hm1cases as [Hz | Hp].
    + rewrite Hz. cbn [Zdigits2]. unfold fx at 1 2.
      specialize (Hz1 Hz). split; [lia |]. 
      cbv zeta. rewrite Z.shiftr_0_l. now left.
    + rewrite (Zdigits2_pos m1 Hp). specialize (Hd1 Hp).
      assert (E : fx (Z.log2 m1 + 1 + e1) - e1 = 0) by (unfold fx; lia).
      rewrite E. split; [lia |]. cbv zeta. rewrite Z.shiftr_0_r.
      right. split; [assumption |].
      rewrite (Zdigits2_pos m1 Hp). unfold fx. lia.
  - (* increment *)
    assert (Hp2 : 0 < m1 + 1) by lia.
    rewrite (Zdigits2_pos (m1 + 1) Hp2).
    destruct Hm1cases as [Hz | Hp].
    + rewrite Hz. cbn [Z.add Z.log2]. specialize (Hz1 Hz).
      assert (E : fx (0 + 1 + e1) - e1 = 0) by (unfold fx; lia).
      cbn [Z.add] in E. rewrite E. split; [lia |]. cbv zeta.
      rewrite Z.shiftr_0_r. right. split; [lia |].
      cbn [Zdigits2 digits2_pos]. unfold fx. lia.
    + specialize (Hd1 Hp).
      destruct (log2_succ_cases m1 Hp) as [Hsame | [Hcarry Hpow]].
      * rewrite Hsame.
        assert (E : fx (Z.log2 m1 + 1 + e1) - e1 = 0) by (unfold fx; lia).
        rewrite E. split; [lia |]. cbv zeta. rewrite Z.shiftr_0_r.
        right. split; [lia |].
        rewrite (Zdigits2_pos (m1 + 1) Hp2), Hsame. unfold fx. lia.
      * rewrite Hcarry.
        assert (Hl1 : 0 <= Z.log2 m1) by apply Z.log2_nonneg.
        assert (E : fx (Z.log2 m1 + 1 + 1 + e1) - e1 = 0 \/
                    (fx (Z.log2 m1 + 1 + 1 + e1) - e1 = 1 /\ Z.log2 m1 = 52))
          by (unfold fx; lia).
        destruct E as [E | [E H52]]; rewrite E; (split; [lia |]); cbv zeta.
        -- rewrite Z.shiftr_0_r. right. split; [lia |].
           rewrite (Zdigits2_pos (m1 + 1) Hp2), Hcarry. unfold fx in *. lia.
        -- rewrite Hpow, H52. right.
           change (Z.shiftr (2 ^ (52 + 1)) 1) with (2 ^ 52).
           split; [reflexivity |].
           change (Zdigits2 (2 ^ 52)) with 53. unfold fx. lia.
Qed.

Lemma shr_record_of_loc_m (m : Z) (l : location) : shr_m (shr_record_of_loc m l) = m.
Proof. destruct l as [| []]; reflexivity. Qed.

Lemma shr_spec (mrs : shr_record) (e n : Z) :
  0 <= shr_m mrs -> 0 <= n ->
  shr_m (fst (shr mrs e n)) = Z.shiftr (shr_m mrs) n /\ snd (shr mrs e n) = e + n.
Proof.
  intros Hm Hn. destruct n as [| p | p]; cbn [shr fst snd].
  - rewrite Z.shiftr_0_r. lia.
  - split; [now apply iter_shr_1_m | reflexivity].
  - lia.
Qed.

Lemma round_nearest_even_cases (m : Z) (l : location) :
  round_nearest_even m l = m \/ round_nearest_even m l = m + 1.
Proof.
  destruct l as [| []]; cbn; auto. destruct (Z.even m); auto.
Qed.

Lemma binary_round_aux_valid (s : bool) (m e : Z) (l : location) :
  0 < m -> e <= fx (Zdigits2 m + e) ->
  valid_binary prec emax (binary_round_aux prec emax s m e l) = true.
Proof.
  intros Hm He.
  unfold binary_round_aux, shr_fexp. rewrite !fexp_fx.
  pose proof (shr_spec (shr_record_of_loc m l) e (fx (Zdigits2 m + e) - e)) as H1.
  rewrite shr_record_of_loc_m in H1.
  destruct H1 as [H1m H1e]; [lia | lia |].
  destruct (shr (shr_record_of_loc m l) e (fx (Zdigits2 m + e) - e)) as [mrs1 e1].
  cbn [fst snd] in H1m, H1e.
  assert (E1 : e1 = fx (Zdigits2 m + e)) by lia. clear H1e.
  set (m2 := round_nearest_even (shr_m mrs1) (loc_of_shr_record mrs1)).
  assert (Hm2 : m2 = Z.shiftr m (fx (Zdigits2 m + e) - e) \/
                m2 = Z.shiftr m (fx (Zdigits2 m + e) - e) + 1).
  { unfold m2. rewrite <- H1m. apply round_nearest_even_cases. }
  destruct (canon_round m e m2 Hm He Hm2) as [Hn2 Hcanon].
  cbv zeta in Hcanon. rewrite <- E1 in Hn2, Hcanon.
  assert (Hm2nn : 0 <= m2).
  { pose proof (shiftr_nonneg' m (fx (Zdigits2 m + e) - e) ltac:(lia)). lia. }
  rewrite !fexp_fx.
  pose proof (shr_spec (shr_record_of_loc m2 loc_Exact) e1
                (fx (Zdigits2 m2 + e1) - e1)) as H2.
  rewrite shr_record_of_loc_m in H2.
  destruct H2 as [H2m H2e]; [assumption | assumption |].
  destruct (shr (shr_record_of_loc m2 loc_Exact) e1 (fx (Zdigits2 m2 + e1) - e1))
    as [mrs2 e2].
  cbn [fst snd] in H2m, H2e.
  rewrite <- H2m, <- H2e in Hcanon.
  destruct (shr_m mrs2) as [| p | p]; try reflexivity.
  destruct (Z.leb_spec e2 (emax - prec)) as [Hle | Hgt]; [| reflexivity].
  cbn [valid_binary]. unfold bounded, canonical_mantissa.
  rewrite fexp_fx.
  destruct Hcanon as [Hc | [_ Hc]]; [discriminate |].
  cbn [Zdigits2] in Hc. rewrite Hc, Z.eqb_refl. cbn [andb].
  now apply Z.leb_le.
Qed.

Lemma digits2_pos_iter_xO (m d : positive) :
  Zpos (digits2_pos (Pos.iter xO m d)) = Zpos (digits2_pos m) + Zpos d.
Proof.
  induction d as [| d IH] using Pos.peano_ind.
  - cbn. lia.
  - rewrite Pos.iter_succ. cbn [digits2_pos]. lia.
Qed.

Lemma binary_round_valid (s : bool) (m : positive) (e : Z) :
  valid_binary prec emax (binary_round prec emax s m e) = true.
Proof.
  unfold binary_round, shl_align. rewrite fexp_fx.
  destruct (fx (Zpos (digits2_pos m) + e) - e) as [| d | d] eqn:E;
    apply binary_round_aux_valid; try lia; cbn [Zdigits2].
  - lia.
  - lia.
  - rewrite digits2_pos_iter_xO.
    replace (Zpos (digits2_pos m) + Zpos d + fx (Zpos (digits2_pos m) + e))
      with (Zpos (digits2_pos m) + e) by lia.
    lia.
Qed.

Lemma binary_normalize_valid (m e : Z) (sz : bool) :
  valid_binary prec emax (binary_normalize prec emax m e sz) = true.
Proof.
  destruct m; cbn [binary_normalize]; [reflexivity | |]; apply binary_round_valid.
Qed.

Lemma bounded_log2 (m : positive) (e : Z) :
  bounded prec emax m e = true ->
  fx (Z.log2 (Zpos m) + 1 + e) = e /\ e <= 971.
Proof.
  unfold bounded, canonical_mantissa. rewrite andb_true_iff, Z.eqb_eq, Z.leb_le.
  rewrite fexp_fx. rewrite <- Zdigits2_log2. cbn [Zdigits2].
  unfold emax, prec. lia.
Qed.

Lemma SFmul_valid (a b : spec_float) :
  valid_binary prec emax a = true -> valid_binary prec emax b = true ->
  valid_binary prec emax (SFmul prec emax a b) = true.
Proof.
  destruct a as [sa | sa | | sa ma ea], b as [sb | sb | | sb mb eb];
    cbn [SFmul valid_binary]; try reflexivity.
  intros Ha Hb.
  apply bounded_log2 in Ha, Hb. destruct Ha as [Ha _], Hb as [Hb _].
  apply binary_round_aux_valid; [lia |].
  rewrite Zdigits2_log2.
  pose proof (Z.log2_mul_below (Zpos ma) (Zpos mb) ltac:(lia) ltac:(lia)) as Hl.
  pose proof (Z.log2_nonneg (Zpos ma)). pose proof (Z.log2_nonneg (Zpos mb)).
  change (Zpos (ma * mb)) with (Zpos ma * Zpos mb).
  unfold fx in *. lia.
Qed.

Lemma SFsub_valid (a b : spec_float) :
  valid_binary prec emax a = true -> valid_binary prec emax b = true ->
  valid_binary prec emax (SFsub prec emax a b) = true.
Proof.
  destruct a as [sa | sa | | sa ma ea], b as [sb | sb | | sb mb eb];
    cbn [SFsub valid_binary]; try reflexivity; intros Ha Hb;
    try (destruct sa, sb; reflexivity); try assumption.
  apply binary_normalize_valid.
Qed.

Lemma SFmul_minus_one (s : bool) (m : positive) (e : Z) :
  bounded prec emax m e = true ->
  SFmul prec emax minus_one (S754_finite s m e) = S754_finite (negb s) m e.
Proof.
  intros Hb.
  unfold bounded, canonical_mantissa in Hb.
  rewrite andb_true_iff, Z.eqb_eq, Z.leb_le, fexp_fx in Hb. destruct Hb as [Hc He].
  change minus_one with (S754_finite true 4503599627370496 (-52)).
  cbn [SFmul xorb].
  cbn [Pos.mul].
  unfold binary_round_aux, shr_fexp. rewrite !fexp_fx.
  cbn [Zdigits2 digits2_pos]. rewrite !Pos2Z.inj_succ. unfold Z.succ.
  replace (Zpos (digits2_pos m) + 1 + 1 + 1 + 1 + 1 + 1 + 1 + 1 + 1 + 1 + 1 + 1 + 1 + 1 + 1 + 1 + 1 + 1 + 1 + 1 + 1 + 1 + 1 + 1 + 1 + 1 + 1 + 1 + 1 + 1 + 1 + 1 + 1 + 1 + 1 + 1 + 1 + 1 + 1 + 1 + 1 + 1 + 1 + 1 + 1 + 1 + 1 + 1 + 1 + 1 + 1 + 1 + (-52 + e))
    with (Zpos (digits2_pos m) + e) by lia.
  rewrite Hc.
  replace (e - (-52 + e)) with 52 by lia.
  cbn [shr shr_record_of_loc].
  cbn [iter_pos shr_1 orb].
  cbn [shr_m loc_of_shr_record shr_r shr_s round_nearest_even].
  cbn [Zdigits2]. replace (-52 + e + 52) with e by lia.
  rewrite fexp_fx, Hc, Z.sub_diag. cbn [shr shr_record_of_loc shr_m].
  apply Z.leb_le in He. rewrite He. now destruct s.
Qed.

Lemma binary_round_aux_opp (s : bool) (m e : Z) (l : location) :
  binary_round_aux prec emax (negb s) m e l
  = SFopp (binary_round_aux prec emax s m e l).
Proof.
  unfold binary_round_aux.
  destruct (shr_fexp prec emax m e l) as [mrs1 e1].
  destruct (shr_fexp prec emax _ e1 loc_Exact) as [mrs2 e2].
  destruct (shr_m mrs2); try reflexivity.
  destruct (e2 <=? emax - prec); reflexivity.
Qed.

Lemma binary_round_opp (s : bool) (m : positive) (e : Z) :
  binary_round prec emax (negb s) m e = SFopp (binary_round prec emax s m e).
Proof.
  unfold binary_round.
  destruct (shl_align m e _) as [mz ez]. apply binary_round_aux_opp.
Qed.

Lemma binary_normalize_opp (n e : Z) :
  negated (binary_normalize prec emax n e false)
          (binary_normalize prec emax (- n) e false).
Proof.
  destruct n as [| p | p]; cbn [binary_normalize Z.opp].
  - right. split; reflexivity.
  - left. apply (binary_round_opp false).
  - left. change false with (negb true) at 1.
    rewrite (binary_round_opp true).
    now destruct (binary_round prec emax true p e) as [[] | [] | | [] ? ?].
Qed.

Lemma SFsub_swap (a b : spec_float) :
  negated (SFsub prec emax a b) (SFsub prec emax b a).
Proof.
  destruct a as [sa | sa | | sa ma ea], b as [sb | sb | | sb mb eb];
    cbn [SFsub];
    try (left; reflexivity);
    try (destruct sa, sb; (left; reflexivity) || (right; split; reflexivity)).
  rewrite (Z.min_comm eb ea).
  set (za := cond_Zopp sa (Zpos (fst (shl_align ma ea (Z.min ea eb))))).
  set (zb := cond_Zopp sb (Zpos (fst (shl_align mb eb (Z.min ea eb))))).
  replace (zb - za) with (- (za - zb)) by lia.
  apply binary_normalize_opp.
Qed.

Lemma SFeqb_finite_refl (s : bool) (m : positive) (e : Z) :
  SFeqb (S754_finite s m e) (S754_finite s m e) = true.
Proof.
  unfold SFeqb, SFcompare.
  destruct s; rewrite Z.compare_refl, Pos.compare_cont_refl; reflexivity.
Qed.

Lemma sub_eqb_neg_mul (p q : spec_float) :
  valid_binary prec emax p = true -> valid_binary prec emax q = true ->
  is_nan (SFsub prec emax p q) = false ->
  SFeqb (SFsub prec emax p q) (SFmul prec emax minus_one (SFsub prec emax q p)) = true.
Proof.
  intros Hp Hq Hnan.
  pose proof (SFsub_valid q p Hq Hp) as Hv.
  destruct (SFsub_swap p q) as [E | [Hz1 Hz2]].
  - rewrite E in *.
    destruct (SFsub prec emax p q) as [s | s | | s m e]; cbn [SFopp] in *.
    + reflexivity.
    + now destruct s.
    + discriminate.
    + cbn [valid_binary] in Hv. rewrite (SFmul_minus_one _ m e Hv).
      rewrite negb_involutive. apply SFeqb_finite_refl.
  - destruct (SFsub prec emax p q); try discriminate.
    destruct (SFsub prec emax q p); try discriminate.
    reflexivity.
Qed.

Lemma eqb_refl_iff (d : double) : eqb d d = true <-> is_nan d = false.
Proof.
  destruct d as [s | s | | s m e]; cbn [is_nan].
  - split; reflexivity.
  - destruct s; split; reflexivity.
  - split; discriminate.
  - split; [reflexivity | intros _; apply SFeqb_finite_refl].
Qed.

(** The difference and [-1] times the opposite difference are the same
    number, NaN included. *)
Lemma sub_same_number_neg_mul (p q : spec_float) :
  valid_binary prec emax p = true -> valid_binary prec emax q = true ->
  same_number (SFsub prec emax p q)
              (SFmul prec emax minus_one (SFsub prec emax q p)) = true.
Proof.
  intros Hp Hq. unfold same_number.
  destruct (is_nan (SFsub prec emax p q)) eqn:Hnan.
  - destruct (SFsub_swap p q) as [E | [Hz _]].
    + destruct (SFsub prec emax p q); try discriminate.
      rewrite E. reflexivity.
    + destruct (SFsub prec emax p q); discriminate.
  - cbn [andb orb]. now apply sub_eqb_neg_mul.
Qed.

End DoubleFacts.

(** ** The members and the free functions *)

Section Generic.

Context {T : Type} `{Numeric T}.

Lemma getters_of_mk (a b c : T) :
  x (mkVector3D a b c) = a /\ y (mkVector3D a b c) = b /\ z (mkVector3D a b c) = c.
Proof. repeat split. Qed.

Lemma vector_eta (A : Vector3D T) : mkVector3D (x A) (y A) (z A) = A.
Proof. now destruct A. Qed.

Lemma scalarProduct_unfold (A B : Vector3D T) :
  scalarProduct A B =
  to_double (add (add (mul (x A) (x B)) (mul (y A) (y B))) (mul (z A) (z B))).
Proof. reflexivity. Qed.

Lemma scalarProduct_sym_of_mul_comm :
  (forall a b : T, mul a b = mul b a) ->
  forall A B : Vector3D T, scalarProduct A B = scalarProduct B A.
Proof.
  intros Hc A B. rewrite !scalarProduct_unfold.
  now rewrite (Hc (x A)), (Hc (y A)), (Hc (z A)).
Qed.

Lemma operator_eq_true_iff (A B : Vector3D T) :
  operator_eq A B = true <->
  eqb (x A) (x B) = true /\ eqb (y A) (y B) = true /\ eqb (z A) (z B) = true.
Proof.
  unfold operator_eq. rewrite !andb_true_iff. tauto.
Qed.

End Generic.

Lemma operator_eq_int_iff (A B : Vector3D int) : operator_eq A B = true <-> A = B.
Proof.
  rewrite operator_eq_true_iff. cbn [eqb Numeric_int].
  rewrite !IntFacts.eqb_eq. destruct A, B; cbn.
  split.
  - intros (-> & -> & ->). reflexivity.
  - intros E. now inversion E.
Qed.

Lemma operator_eq_int_refl (A : Vector3D int) : operator_eq A A = true.
Proof. now apply operator_eq_int_iff. Qed.

(** On [double], [operator==] is false on a vector with a NaN component,
    even against itself. *)
Lemma operator_eq_double_refl (A : Vector3D double) :
  operator_eq A A = true <-> Forall3D (fun d => Double.is_nan d = false) A.
Proof.
  rewrite operator_eq_true_iff. unfold Forall3D.
  cbn [eqb Numeric_double x y z].
  now rewrite !DoubleFacts.eqb_refl_iff.
Qed.

(** C9: each setter replaces its own component by the value given, whatever
    the value, and leaves the other two components as they were. *)
Theorem setters_replace_one_component :
  forall (T : Type) (A : Vector3D T) (v : T),
    (x (setX A v) = v /\ y (setX A v) = y A /\ z (setX A v) = z A) /\
    (x (setY A v) = x A /\ y (setY A v) = v /\ z (setY A v) = z A) /\
    (x (setZ A v) = x A /\ y (setZ A v) = y A /\ z (setZ A v) = v).
Proof.
  intros T A v. destruct A as [a b c]. cbn. repeat split.
Qed.

(** C8: the scalar product with the scalar on the left and the one with the
    scalar on the right return the same vector, the components scaled by
    the scalar; on [int] the comparison of the two by [operator==] is
    true. *)
Theorem scalar_multiplication_orders_agree :
  (forall (T : Type) (N : Numeric T) (s : T) (A : Vector3D T),
      operator_mul_sv s A = operator_mul_vs A s /\
      operator_mul_sv s A = mkVector3D (mul s (x A)) (mul s (y A)) (mul s (z A))) /\
  (forall (s : int) (A : Vector3D int),
      operator_eq (operator_mul_sv s A) (operator_mul_vs A s) = true).
Proof.
  split.
  - intros T N s A. split; reflexivity.
  - intros s A. apply operator_eq_int_iff. reflexivity.
Qed.

Lemma uchar_sub_exact (a b : Z) :
  UChar.in_range a -> UChar.in_range b -> b <= a ->
  UChar.narrow (Int.sub a b) = Int.sub a b.
Proof.
  unfold UChar.in_range, UChar.narrow. intros Ha Hb Hab.
  unfold Int.sub. rewrite IntFacts.wrap_small.
  - apply Z.mod_small. lia.
  - unfold Int.in_range, Int.min_signed, Int.max_signed.
    rewrite IntFacts.half_modulus_eq. lia.
Qed.

(** Where the arithmetic is closed, the two are one expression. *)
Lemma distance_closed {T : Type} `{Numeric T} (A B : Vector3D T) :
  distance A B = module (operator_minus A B).
Proof. reflexivity. Qed.

(** C3: at [int] and at [double] the distance, computed as the square
    root of the sum of the squared component differences, is the module of
    the difference vector.  At [unsigned char] it is so when no component
    of the first vector is below that of the second; otherwise the two
    part: from (0,0,0) to (1,0,0) the distance is 1, computed in [int],
    and the module of the difference is 255, the difference being narrowed
    to (255,0,0). *)
Theorem distance_and_module_of_difference :
  (forall A B : Vector3D int, distance A B = module (operator_minus A B)) /\
  (forall A B : Vector3D double, distance A B = module (operator_minus A B)) /\
  (forall A B : Vector3D UChar.uchar,
      Forall3D UChar.in_range A -> Forall3D UChar.in_range B ->
      m_x B <= m_x A -> m_y B <= m_y A -> m_z B <= m_z A ->
      uchar_distance A B = uchar_module (uchar_operator_minus A B)) /\
  (let A : Vector3D UChar.uchar := mkVector3D 0 0 0 in
   let B : Vector3D UChar.uchar := mkVector3D 1 0 0 in
   uchar_operator_minus A B = mkVector3D 255 0 0 /\
   uchar_distance A B = Double.of_Z 1 /\
   uchar_module (uchar_operator_minus A B) = Double.of_Z 255).
Proof.
  split; [| split; [| split]].
  - intros A B. apply distance_closed.
  - intros A B. apply distance_closed.
  - intros [a1 a2 a3] [b1 b2 b3] (Ha1 & Ha2 & Ha3) (Hb1 & Hb2 & Hb3).
    cbn [m_x m_y m_z] in *. intros H1 H2 H3.
    unfold uchar_distance, uchar_module, uchar_operator_minus.
    rewrite distance_closed. apply (f_equal module).
    unfold UChar.narrow_vector, UChar.promote, operator_minus.
    cbn [x y z m_x m_y m_z sub Numeric_int].
    now rewrite !uchar_sub_exact by assumption.
  - vm_compute. repeat split.
Qed.

Lemma distance_and_module_of_difference_witness :
  let A : Vector3D UChar.uchar := mkVector3D 200 7 255 in
  let B : Vector3D UChar.uchar := mkVector3D 100 7 0 in
  uchar_operator_minus A B = mkVector3D 100 0 255 /\
  uchar_distance A B = uchar_module (uchar_operator_minus A B).
Proof.
  split; [vm_compute; reflexivity |].
  apply (proj1 (proj2 (proj2 distance_and_module_of_difference))
           (mkVector3D 200 7 255) (mkVector3D 100 7 0));
    unfold Forall3D, UChar.in_range; cbn; lia.
Defined.

(** C4: the cross product has the components
    [Ay*Bz - Az*By], [Az*Bx - Ax*Bz], [Ax*By - Ay*Bx]; the cross product of
    (1,0,0) and (0,1,0) is (0,0,1), on [int] and on [double]. *)
Theorem crossProduct_components :
  (forall (T : Type) (N : Numeric T) (A B : Vector3D T),
      x (crossProduct A B) = sub (mul (y A) (z B)) (mul (z A) (y B)) /\
      y (crossProduct A B) = sub (mul (z A) (x B)) (mul (x A) (z B)) /\
      z (crossProduct A B) = sub (mul (x A) (y B)) (mul (y A) (x B))) /\
  (crossProduct (mkVector3D 1 0 0 : Vector3D int) (mkVector3D 0 1 0)
     = mkVector3D 0 0 1 /\
   operator_eq
     (crossProduct (mkVector3D 1 0 0 : Vector3D int) (mkVector3D 0 1 0))
     (mkVector3D 0 0 1) = true) /\
  (let d := Double.of_Z in
   crossProduct (mkVector3D (d 1) (d 0) (d 0)) (mkVector3D (d 0) (d 1) (d 0))
     = mkVector3D (d 0) (d 0) (d 1) /\
   operator_eq
     (crossProduct (mkVector3D (d 1) (d 0) (d 0)) (mkVector3D (d 0) (d 1) (d 0)))
     (mkVector3D (d 0) (d 0) (d 1)) = true).
Proof.
  split; [| split].
  - intros T N A B. repeat split.
  - split; vm_compute; reflexivity.
  - split; vm_compute; reflexivity.
Qed.

(** C2: the scalar product is the sum of the components of the
    component-wise product, computed in the element type and converted to
    [double]; it returns the same double when its arguments are swapped. *)
Theorem scalarProduct_sum_of_products_symmetric :
  (forall (T : Type) (N : Numeric T) (A B : Vector3D T),
      scalarProduct A B =
        to_double (add (add (x (operator_mul_vv A B)) (y (operator_mul_vv A B)))
                       (z (operator_mul_vv A B))) /\
      scalarProduct A B =
        to_double (add (add (mul (x A) (x B)) (mul (y A) (y B)))
                       (mul (z A) (z B)))) /\
  (forall A B : Vector3D int, scalarProduct A B = scalarProduct B A) /\
  (forall A B : Vector3D double, scalarProduct A B = scalarProduct B A).
Proof.
  split; [| split].
  - intros T N A B. split; reflexivity.
  - apply scalarProduct_sym_of_mul_comm. exact IntFacts.int_mul_comm.
  - apply scalarProduct_sym_of_mul_comm. exact DoubleFacts.double_mul_comm.
Qed.

(** C7: on [int], subtracting a vector and adding it back returns the
    vector started from, and [operator==] says so. *)
Theorem sub_then_add_int :
  forall A B : Vector3D int,
    Forall3D Int.in_range A ->
    operator_plus (operator_minus A B) B = A /\
    operator_eq (operator_plus (operator_minus A B) B) A = true.
Proof.
  intros A B (Hx & Hy & Hz).
  assert (E : operator_plus (operator_minus A B) B = A).
  { destruct A as [a1 a2 a3], B as [b1 b2 b3]. cbn in *.
    unfold operator_plus, operator_minus. cbn.
    now rewrite !IntFacts.sub_add. }
  split; [exact E |].
  rewrite E. apply operator_eq_int_refl.
Qed.

Lemma sub_then_add_int_witness :
  let A : Vector3D int := mkVector3D 2147483647 (-2147483648) 5 in
  let B : Vector3D int := mkVector3D (-1) 1 7 in
  operator_minus A B = mkVector3D (-2147483648) 2147483647 (-2) /\
  operator_plus (operator_minus A B) B = A /\
  operator_eq (operator_plus (operator_minus A B) B) A = true.
Proof.
  split; [vm_compute; reflexivity |].
  apply (sub_then_add_int (mkVector3D 2147483647 (-2147483648) 5)
                          (mkVector3D (-1) 1 7)).
  unfold Forall3D, Int.in_range; vm_compute; intuition discriminate.
Defined.

(** ** Decimal text of an [int] *)

Module Decimal.

Lemma digit_cases (d : Z) :
  0 <= d < 10 ->
  d = 0 \/ d = 1 \/ d = 2 \/ d = 3 \/ d = 4 \/ d = 5 \/ d = 6 \/ d = 7 \/
  d = 8 \/ d = 9.
Proof. lia. Qed.

Ltac each_digit d H :=
  destruct (digit_cases d H) as
    [-> | [-> | [-> | [-> | [-> | [-> | [-> | [-> | [-> | ->]]]]]]]]].

Lemma is_digit_digit_char (d : Z) : 0 <= d < 10 -> is_digit (digit_char d) = true.
Proof. intros Hd. each_digit d Hd; reflexivity. Qed.

Lemma digit_val_digit_char (d : Z) : 0 <= d < 10 -> digit_val (digit_char d) = d.
Proof. intros Hd. each_digit d Hd; reflexivity. Qed.

Lemma put_digits_app (fuel : nat) :
  forall (n : Z) (acc : list ascii),
    put_digits fuel n acc = put_digits fuel n [] ++ acc.
Proof.
  induction fuel as [| fuel IH]; intros n acc; cbn [put_digits].
  - reflexivity.
  - destruct (n <? 10); [reflexivity |].
    rewrite (IH (n / 10) (digit_char (n mod 10) :: acc)).
    rewrite (IH (n / 10) [digit_char (n mod 10)]).
    now rewrite <- app_assoc.
Qed.

Lemma put_digits_step (fuel : nat) (n : Z) :
  10 <= n ->
  put_digits (S fuel) n [] = put_digits fuel (n / 10) [] ++ [digit_char (n mod 10)].
Proof.
  intros Hn. cbn [put_digits].
  destruct (Z.ltb_spec n 10); [lia |].
  apply put_digits_app.
Qed.

Lemma put_digits_all_digits (fuel : nat) :
  forall n : Z, 0 <= n -> Forall (fun c => is_digit c = true) (put_digits fuel n []).
Proof.
  induction fuel as [| fuel IH]; intros n Hn.
  - constructor.
  - destruct (Z.ltb_spec n 10) as [Hlt | Hge].
    + cbn [put_digits]. destruct (Z.ltb_spec n 10); [| lia].
      constructor; [| constructor]. apply is_digit_digit_char; lia.
    + rewrite put_digits_step by assumption.
      apply Forall_app. split.
      * apply IH. apply Z.div_pos; lia.
      * constructor; [| constructor].
        apply is_digit_digit_char. apply Z.mod_pos_bound; lia.
Qed.

Lemma put_digits_nonempty (fuel : nat) (n : Z) :
  put_digits (S fuel) n [] <> [].
Proof.
  destruct (Z.ltb_spec n 10) as [Hlt | Hge].
  - cbn [put_digits]. destruct (Z.ltb_spec n 10); [discriminate | lia].
  - rewrite put_digits_step by assumption.
    intros E. apply app_eq_nil in E. destruct E as [_ E]. discriminate.
Qed.

Lemma digits_value_snoc (ds : list ascii) (c : ascii) :
  digits_value (ds ++ [c]) = 10 * digits_value ds + digit_val c.
Proof. unfold digits_value. now rewrite fold_left_app. Qed.

(** With enough fuel for its digits, the text of a natural number reads
    back as the number. *)
Lemma digits_value_put_digits (fuel : nat) :
  forall n : Z,
    0 <= n < 10 ^ Z.of_nat fuel ->
    digits_value (put_digits fuel n []) = n.
Proof.
  induction fuel as [| fuel IH]; intros n Hn.
  - cbn in Hn. cbn. lia.
  - destruct (Z.ltb_spec n 10) as [Hlt | Hge].
    + cbn [put_digits]. destruct (Z.ltb_spec n 10); [| lia].
      cbn [digits_value fold_left]. rewrite digit_val_digit_char; lia.
    + rewrite put_digits_step by assumption.
      rewrite digits_value_snoc, IH.
      * rewrite digit_val_digit_char by (apply Z.mod_pos_bound; lia).
        symmetry. apply Z.div_mod. lia.
      * rewrite Nat2Z.inj_succ, Z.pow_succ_r in Hn by lia.
        split; [apply Z.div_pos; lia |].
        apply Z.div_lt_upper_bound; lia.
Qed.

Lemma span_digits_app (ds rest : list ascii) :
  Forall (fun c => is_digit c = true) ds ->
  ends_field rest ->
  span_digits (ds ++ rest) = (ds, rest).
Proof.
  intros Hds Hrest. induction Hds as [| c ds Hc _ IH]; cbn [app span_digits].
  - destruct rest as [| c rest]; [reflexivity |].
    cbn in Hrest. cbn [span_digits]. now rewrite Hrest.
  - now rewrite Hc, IH.
Qed.

End Decimal.

(** ** Reading back what was written *)

Module StreamFacts.

Import Decimal.

Lemma digit_not_sign (c : ascii) :
  is_digit c = true -> (code c =? 45) = false /\ (code c =? 43) = false.
Proof.
  unfold is_digit. rewrite andb_true_iff, !Z.leb_le, !Z.eqb_neq. lia.
Qed.

Lemma digit_not_comma (c : ascii) : is_digit c = true -> is_comma c = false.
Proof.
  unfold is_digit, is_comma. rewrite andb_true_iff, !Z.leb_le, Z.eqb_neq. lia.
Qed.

Lemma put_int_nonneg (v : int) :
  0 <= v -> put_int v = put_digits max_digits v [].
Proof. intros Hv. unfold put_int. destruct (Z.ltb_spec v 0); [lia | reflexivity]. Qed.

Lemma put_int_neg (v : int) :
  v < 0 -> put_int v = minus_sign :: put_digits max_digits (- v) [].
Proof. intros Hv. unfold put_int. destruct (Z.ltb_spec v 0); [reflexivity | lia]. Qed.

Lemma put_int_chars (v : int) :
  Forall (fun c => is_digit c = true \/ c = minus_sign) (put_int v).
Proof.
  destruct (Z.lt_ge_cases v 0) as [Hneg | Hpos].
  - rewrite put_int_neg by assumption. constructor; [now right |].
    eapply Forall_impl; [| apply put_digits_all_digits; lia]. cbn; auto.
  - rewrite put_int_nonneg by assumption.
    eapply Forall_impl; [| apply put_digits_all_digits; lia]. cbn; auto.
Qed.

(** The text of an [int] starts with a digit or with the minus sign. *)
Lemma put_int_head (v : int) :
  exists c tl, put_int v = c :: tl /\ (is_digit c = true \/ c = minus_sign).
Proof.
  pose proof (put_int_chars v) as Hall.
  destruct (put_int v) as [| c tl] eqn:E.
  - exfalso. unfold put_int in E. destruct (v <? 0); [discriminate |].
    now apply (put_digits_nonempty 9 v).
  - exists c, tl. split; [reflexivity |]. now inversion Hall.
Qed.

Lemma in_range_digits (v : Z) :
  Int.in_range v ->
  - v < 10 ^ Z.of_nat max_digits /\ v < 10 ^ Z.of_nat max_digits.
Proof.
  unfold Int.in_range, Int.min_signed, Int.max_signed.
  rewrite IntFacts.half_modulus_eq.
  change (10 ^ Z.of_nat max_digits) with 10000000000. lia.
Qed.

(** The numeric field of a written [int] is the [int]. *)
Lemma num_get_put_int (v : int) (rest : list ascii) :
  Int.in_range v -> ends_field rest ->
  num_get (put_int v ++ rest) = (Some v, rest).
Proof.
  intros Hv Hrest. destruct (in_range_digits v Hv) as [Hlo Hhi].
  destruct (Z.lt_ge_cases v 0) as [Hneg | Hpos].
  - rewrite put_int_neg by assumption.
    unfold num_get. cbn [app]. change (code minus_sign =? 45) with true.
    cbv iota beta.
    rewrite span_digits_app;
      [| apply put_digits_all_digits; lia | assumption].
    pose proof (put_digits_nonempty 9 (- v)) as Hne.
    change (S 9) with max_digits in Hne.
    destruct (put_digits max_digits (- v) []) as [| c tl] eqn:E;
      [contradiction |].
    rewrite <- E, digits_value_put_digits by (split; [lia | exact Hlo]).
    now rewrite Z.opp_involutive.
  - rewrite put_int_nonneg by assumption.
    pose proof (put_digits_nonempty 9 v) as Hne.
    change (S 9) with max_digits in Hne.
    pose proof (put_digits_all_digits max_digits v Hpos) as Hall.
    pose proof (digits_value_put_digits max_digits v (conj Hpos Hhi)) as Hval.
    destruct (put_digits max_digits v []) as [| c tl] eqn:E;
      [contradiction |].
    unfold num_get. cbn [app].
    assert (Hc : is_digit c = true) by now inversion Hall.
    destruct (digit_not_sign c Hc) as [-> ->].
    change (c :: tl ++ rest) with ((c :: tl) ++ rest).
    rewrite span_digits_app by assumption.
    now rewrite Hval.
Qed.

Lemma skipws_app (sp : ascii -> bool) (pre s : list ascii) :
  Forall (fun c => sp c = true) pre ->
  skipws sp (pre ++ s) = skipws sp s.
Proof.
  intros Hpre. induction Hpre as [| c pre Hc _ IH]; cbn [app skipws].
  - reflexivity.
  - now rewrite Hc.
Qed.

Lemma skipws_put_int (sp : ascii -> bool) (v : int) (rest : list ascii) :
  keeps_numbers sp ->
  skipws sp (put_int v ++ rest) = put_int v ++ rest.
Proof.
  intros [Hdig Hminus].
  destruct (put_int_head v) as (c & tl & -> & Hc).
  cbn [app skipws].
  destruct Hc as [Hc | ->]; [now rewrite (Hdig c Hc) | now rewrite Hminus].
Qed.

(** Extraction of a written [int] from a good stream, after any white
    space: the [int] is read, the stream stays free of failure, and eof
    is set exactly when the text ended the input. *)
Lemma extract_put_int (sp : ascii -> bool) (pre rest : list ascii) (v v0 : int) :
  keeps_numbers sp ->
  Forall (fun c => sp c = true) pre ->
  Int.in_range v -> ends_field rest ->
  extract_int (mk_istream (pre ++ put_int v ++ rest) false false sp) v0
    = (mk_istream rest false (at_end rest) sp, v).
Proof.
  intros Hsp Hpre Hv Hrest.
  unfold extract_int. cbn [good failbit eofbit rdbuf isspace negb andb].
  rewrite skipws_app, skipws_put_int by assumption.
  destruct (put_int_head v) as (c & tl & E & _).
  pose proof (num_get_put_int v rest Hv Hrest) as Hget.
  rewrite E in *. cbn [app] in *. rewrite Hget.
  unfold Int.in_range in Hv.
  destruct (Z.ltb_spec v Int.min_signed); [lia |].
  destruct (Z.ltb_spec Int.max_signed v); [lia |].
  reflexivity.
Qed.

Lemma keeps_numbers_classic : keeps_numbers classic_space.
Proof.
  split; [| reflexivity].
  intros c. unfold is_digit, classic_space.
  rewrite andb_true_iff, orb_false_iff, andb_false_iff, !Z.leb_le,
    Z.eqb_neq, !Z.leb_gt.
  lia.
Qed.

Lemma keeps_numbers_comma : keeps_numbers comma_space.
Proof.
  split; [| reflexivity].
  intros c Hc. unfold comma_space.
  rewrite (proj1 keeps_numbers_classic c Hc), (digit_not_comma c Hc).
  reflexivity.
Qed.

Lemma strip_commas_put_int (v : int) : strip_commas (put_int v) = put_int v.
Proof.
  unfold strip_commas. apply forallb_filter_id. apply forallb_forall.
  intros c Hc.
  pose proof (put_int_chars v) as Hall. rewrite Forall_forall in Hall.
  destruct (Hall c Hc) as [Hd | ->]; [| reflexivity].
  now rewrite (digit_not_comma c Hd).
Qed.

Lemma operator_out_int (os : ostream) (A : Vector3D int) :
  operator_out os A =
  os ++ put_int (x A) ++ separator ++ put_int (y A) ++ separator ++ put_int (z A).
Proof.
  unfold operator_out. cbn [stream_insert Streamable_int].
  now rewrite <- !app_assoc.
Qed.

(** Three written [int]s, separated by white space of the locale, are
    read by the input operator in order, up to the end of the text. *)
Lemma operator_in_three (sp : ascii -> bool) (sep : list ascii)
      (a b c : int) (B : Vector3D int) (x0 y0 z0 : int) :
  keeps_numbers sp ->
  sep <> [] -> Forall (fun k => sp k = true) sep -> ends_field sep ->
  Int.in_range a -> Int.in_range b -> Int.in_range c ->
  operator_in (istream_of sp (put_int a ++ sep ++ put_int b ++ sep ++ put_int c))
              B x0 y0 z0
    = (mk_istream [] false true sp, mkVector3D a b c).
Proof.
  intros Hsp Hne Hsep Hend Ha Hb Hc.
  unfold operator_in, istream_of. cbn [stream_extract Streamable_int].
  pose proof (extract_put_int sp [] (sep ++ put_int b ++ sep ++ put_int c) a x0
                Hsp (Forall_nil _) Ha) as E1.
  cbn [app] in E1. rewrite E1.
  2:{ destruct sep as [| k sep]; [contradiction | exact Hend]. }
  assert (Hat : at_end (sep ++ put_int b ++ sep ++ put_int c) = false).
  { destruct sep as [| k sep]; [contradiction | reflexivity]. }
  rewrite Hat.
  rewrite (extract_put_int sp sep (sep ++ put_int c) b y0 Hsp Hsep Hb).
  2:{ destruct sep as [| k sep]; [contradiction | exact Hend]. }
  assert (Hat' : at_end (sep ++ put_int c) = false).
  { destruct sep as [| k sep]; [contradiction | reflexivity]. }
  rewrite Hat'.
  pose proof (extract_put_int sp sep [] c z0 Hsp Hsep Hc I) as E3.
  rewrite app_nil_r in E3. rewrite E3.
  destruct B. reflexivity.
Qed.

End StreamFacts.

(** C5: a vector of [int] written by the output operator is the text
    [x, y, z]; read by the input operator once the commas are removed, or
    from a stream whose locale counts the comma as white space, the text
    gives back the three components, with no failure reported. *)
Theorem write_then_read_int :
  forall (A B : Vector3D int) (x0 y0 z0 : int),
    Forall3D Int.in_range A ->
    operator_out [] A
      = put_int (x A) ++ text_of ", " ++ put_int (y A) ++ text_of ", " ++ put_int (z A) /\
    operator_in (istream_of classic_space (strip_commas (operator_out [] A))) B x0 y0 z0
      = (mk_istream [] false true classic_space, A) /\
    operator_in (istream_of comma_space (operator_out [] A)) B x0 y0 z0
      = (mk_istream [] false true comma_space, A).
Proof.
  intros A B x0 y0 z0 (Hx & Hy & Hz).
  rewrite StreamFacts.operator_out_int. cbn [app].
  destruct A as [a b c]. cbn [x y z m_x m_y m_z] in *.
  split; [reflexivity | split].
  - unfold strip_commas. rewrite !filter_app.
    fold (strip_commas (put_int a)) (strip_commas (put_int b))
         (strip_commas (put_int c)).
    rewrite !StreamFacts.strip_commas_put_int.
    change (filter (fun k => negb (is_comma k)) separator) with [blank].
    apply StreamFacts.operator_in_three; try assumption.
    + apply StreamFacts.keeps_numbers_classic.
    + discriminate.
    + repeat constructor.
    + reflexivity.
  - apply StreamFacts.operator_in_three; try assumption.
    + apply StreamFacts.keeps_numbers_comma.
    + discriminate.
    + repeat constructor.
    + reflexivity.
Qed.

Lemma write_then_read_int_witness :
  let A : Vector3D int := mkVector3D 12 (-2147483648) 0 in
  let B : Vector3D int := mkVector3D 1 2 3 in
  operator_out [] A = text_of "12, -2147483648, 0" /\
  operator_in (istream_of classic_space (strip_commas (operator_out [] A))) B 7 8 9
    = (mk_istream [] false true classic_space, A) /\
  operator_in (istream_of comma_space (operator_out [] A)) B 7 8 9
    = (mk_istream [] false true comma_space, A).
Proof.
  split; [vm_compute; reflexivity |].
  apply (write_then_read_int (mkVector3D 12 (-2147483648) 0) (mkVector3D 1 2 3) 7 8 9).
  unfold Forall3D, Int.in_range; vm_compute; intuition discriminate.
Defined.

(** Read as written, commas included, by a stream of the classic locale,
    the text gives the first component only: the second extraction meets
    the comma, stores zero and sets the fail bit, and the third local is
    never assigned. *)
Lemma read_with_commas_fails :
  let A : Vector3D int := mkVector3D 12 (-2147483648) 5 in
  let r := operator_in (istream_of classic_space (operator_out [] A))
             (mkVector3D 1 2 3) 7 8 9 in
  snd r = mkVector3D 12 0 9 /\ failbit (fst r) = true /\
  rdbuf (fst r) = text_of ", -2147483648, 5".
Proof. vm_compute. repeat split. Qed.

Lemma operator_in_unfold {T : Type} `{Streamable T} (ins : istream)
      (A : Vector3D T) (x0 y0 z0 : T) :
  operator_in ins A x0 y0 z0 =
  (fst (stream_extract (fst (stream_extract (fst (stream_extract ins x0)) y0)) z0),
   mkVector3D (snd (stream_extract ins x0))
     (snd (stream_extract (fst (stream_extract ins x0)) y0))
     (snd (stream_extract (fst (stream_extract (fst (stream_extract ins x0)) y0)) z0))).
Proof.
  unfold operator_in.
  destruct (stream_extract ins x0) as [is1 x1]. cbn [fst snd].
  destruct (stream_extract is1 y0) as [is2 y1]. cbn [fst snd].
  destruct (stream_extract is2 z0) as [is3 z1]. cbn [fst snd].
  destruct A. reflexivity.
Qed.

Lemma operator_in_masked_none {T : Type} `{Streamable T} (ins : istream)
      (A : Vector3D T) (x0 y0 z0 : T) :
  operator_in_masked no_exceptions ins A x0 y0 z0 =
  returned (fst (operator_in ins A x0 y0 z0)) (snd (operator_in ins A x0 y0 z0)).
Proof.
  unfold operator_in_masked, operator_in, throws, no_exceptions.
  cbn [throw_on_fail throw_on_eof andb orb].
  destruct (stream_extract ins x0) as [is1 x1].
  destruct (stream_extract is1 y0) as [is2 y1].
  destruct (stream_extract is2 z0) as [is3 z1].
  reflexivity.
Qed.

Lemma operator_in_masked_thrown {T : Type} `{Streamable T} (m : iomask)
      (ins ins' : istream) (A A' : Vector3D T) (x0 y0 z0 : T) :
  operator_in_masked m ins A x0 y0 z0 = thrown ins' A' -> A' = A.
Proof.
  unfold operator_in_masked.
  destruct (stream_extract ins x0) as [is1 x1].
  destruct (throws m is1); [now intros [= _ <-] |].
  destruct (stream_extract is1 y0) as [is2 y1].
  destruct (throws m is2); [now intros [= _ <-] |].
  destruct (stream_extract is2 z0) as [is3 z1].
  destruct (throws m is3); [now intros [= _ <-] | discriminate].
Qed.




(** ** The unit vector *)

(** C1, where the member compiles, at [double]: [direction] returns the
    vector of the components divided by the module, with no guard: when the
    module is zero every component of the result is a NaN or an infinity,
    and a result is returned all the same. *)
Theorem direction_divides_by_module :
  (forall A : Vector3D double,
      direction A = operator_div_vs A (module A) /\
      x (direction A) = div (x A) (module A) /\
      y (direction A) = div (y A) (module A) /\
      z (direction A) = div (z A) (module A) /\
      (Double.is_zero (module A) = true ->
       Forall3D (fun d => Double.is_nan d = true \/ Double.is_infinite d = true)
                (direction A))) /\
  (let o := Double.of_Z 0 in
   module (mkVector3D o o o) = o /\
   direction (mkVector3D o o o) = mkVector3D Double.nan Double.nan Double.nan) /\
  (let o := Double.of_Z 0 in
   let tiny := S754_finite false 4503599627370496 (-700) in
   Double.valid tiny = true /\
   module (mkVector3D tiny o o) = o /\
   direction (mkVector3D tiny o o)
     = mkVector3D Double.pos_inf Double.nan Double.nan).
Proof.
  split; [| split; vm_compute; repeat split].
  intros A. do 4 (split; [reflexivity |]).
  intros Hz. destruct (module A) as [s | | |] eqn:E; try discriminate.
  unfold direction, operator_div_vs, Forall3D. rewrite E. cbn [m_x m_y m_z].
  repeat split; apply (DoubleFacts.div_by_zero _ s).
Qed.

Lemma direction_divides_by_module_witness :
  let A : Vector3D double := mkVector3D (Double.of_Z 0) (Double.of_Z 0) (Double.of_Z 0) in
  Double.is_zero (module A) = true /\
  Forall3D (fun d => Double.is_nan d = true \/ Double.is_infinite d = true)
           (direction A).
Proof.
  split; [vm_compute; reflexivity |].
  apply (proj2 (proj2 (proj2 (proj2
           (proj1 direction_divides_by_module
              (mkVector3D (Double.of_Z 0) (Double.of_Z 0) (Double.of_Z 0))))))).
  vm_compute; reflexivity.
Defined.

(** The unit vector of (3, 0, 4). *)
Lemma direction_3_0_4 :
  let d := Double.of_Z in
  module (mkVector3D (d 3) (d 0) (d 4)) = d 5 /\
  direction (mkVector3D (d 3) (d 0) (d 4))
    = mkVector3D (Double.div (d 3) (d 5)) (d 0) (Double.div (d 4) (d 5)).
Proof. vm_compute. split; reflexivity. Qed.

(** The module of (1, 2, 2) is 3, on [int] and on [double]. *)
Lemma module_1_2_2 :
  module (mkVector3D 1 2 2 : Vector3D int) = Double.of_Z 3 /\
  module (mkVector3D (Double.of_Z 1) (Double.of_Z 2) (Double.of_Z 2)) = Double.of_Z 3.
Proof. vm_compute. split; reflexivity. Qed.

(** ** Anti-commutativity of the cross product *)

Lemma crossProduct_anticomm_int (A B : Vector3D int) :
  crossProduct A B = operator_mul_sv (of_int (-1)) (crossProduct B A).
Proof.
  destruct A as [a1 a2 a3], B as [b1 b2 b3].
  unfold crossProduct, operator_mul_sv. cbn.
  rewrite (IntFacts.sub_anticomm (Int.mul a2 b3) (Int.mul a3 b2)),
          (IntFacts.sub_anticomm (Int.mul a3 b1) (Int.mul a1 b3)),
          (IntFacts.sub_anticomm (Int.mul a1 b2) (Int.mul a2 b1)).
  now rewrite (IntFacts.int_mul_comm a2 b3), (IntFacts.int_mul_comm a3 b2),
              (IntFacts.int_mul_comm a3 b1), (IntFacts.int_mul_comm a1 b3),
              (IntFacts.int_mul_comm a1 b2), (IntFacts.int_mul_comm a2 b1).
Qed.

(** C6, as the code has it: on [int] the cross product of A and B is
    [-1] times the cross product of B and A, wrap-around included, and
    [operator==] says so. *)
Theorem crossProduct_anticommutative :
  forall A B : Vector3D int,
    crossProduct A B = operator_mul_sv (of_int (-1)) (crossProduct B A) /\
    operator_eq (crossProduct A B)
                (operator_mul_sv (of_int (-1)) (crossProduct B A)) = true.
Proof.
  intros A B. split; [apply crossProduct_anticomm_int |].
  apply operator_eq_int_iff, crossProduct_anticomm_int.
Qed.

(** On [double], where the scalar is written [-1.0], the comparison fails
    with the vectors (inf, 0, 0) and (0, 0, 1): the third component of
    their cross product is [inf * 0 - 0 * 0], a NaN however the product and
    the difference are evaluated, and a NaN compares unequal to everything,
    so the comparison is false whatever stands on its right. *)
Lemma crossProduct_anticommutative_fails_on_double :
  let A := mkVector3D Double.pos_inf (Double.of_Z 0) (Double.of_Z 0) in
  let B := mkVector3D (Double.of_Z 0) (Double.of_Z 0) (Double.of_Z 1) in
  Double.minus_one = S754_finite true 4503599627370496 (-52) /\
  z (crossProduct A B) = Double.nan /\
  operator_eq (crossProduct A B)
              (operator_mul_sv Double.minus_one (crossProduct B A)) = false /\
  (forall V : Vector3D double, operator_eq (crossProduct A B) V = false).
Proof.
  cbv zeta. split; [reflexivity |]. split; [vm_compute; reflexivity |].
  split; [vm_compute; reflexivity |].
  intros V. unfold operator_eq.
  replace (z (crossProduct (mkVector3D Double.pos_inf (Double.of_Z 0) (Double.of_Z 0))
                           (mkVector3D (Double.of_Z 0) (Double.of_Z 0) (Double.of_Z 1))))
    with Double.nan by (vm_compute; reflexivity).
  cbn [eqb Numeric_double]. rewrite DoubleFacts.eqb_nan_l. apply andb_false_r.
Qed.

(** * Further properties of the operations *)

(** ** Wrapped arithmetic as arithmetic modulo [2^32] *)

Module IntAlgebra.

Import Int.

Lemma wrap_add_l (a b : Z) : wrap (wrap a + b) = wrap (a + b).
Proof. apply IntFacts.eqm_wrap, IntFacts.eqm_add; [apply IntFacts.wrap_eqm | apply IntFacts.eqm_refl]. Qed.

Lemma wrap_add_r (a b : Z) : wrap (a + wrap b) = wrap (a + b).
Proof. apply IntFacts.eqm_wrap, IntFacts.eqm_add; [apply IntFacts.eqm_refl | apply IntFacts.wrap_eqm]. Qed.

Lemma wrap_sub_l (a b : Z) : wrap (wrap a - b) = wrap (a - b).
Proof. apply IntFacts.eqm_wrap, IntFacts.eqm_sub; [apply IntFacts.wrap_eqm | apply IntFacts.eqm_refl]. Qed.

Lemma wrap_sub_r (a b : Z) : wrap (a - wrap b) = wrap (a - b).
Proof. apply IntFacts.eqm_wrap, IntFacts.eqm_sub; [apply IntFacts.eqm_refl | apply IntFacts.wrap_eqm]. Qed.

Lemma wrap_mul_l (a b : Z) : wrap (wrap a * b) = wrap (a * b).
Proof. apply IntFacts.eqm_wrap, IntFacts.eqm_mul; [apply IntFacts.wrap_eqm | apply IntFacts.eqm_refl]. Qed.

Lemma wrap_mul_r (a b : Z) : wrap (a * wrap b) = wrap (a * b).
Proof. apply IntFacts.eqm_wrap, IntFacts.eqm_mul; [apply IntFacts.eqm_refl | apply IntFacts.wrap_eqm]. Qed.

Lemma wrap_wrap (a : Z) : wrap (wrap a) = wrap a.
Proof. apply IntFacts.eqm_wrap, IntFacts.wrap_eqm. Qed.

#[global] Instance eqm_Equivalence : Equivalence eqm.
Proof.
  split.
  - intros a. apply IntFacts.eqm_refl.
  - intros a b. apply IntFacts.eqm_sym.
  - intros a b c. apply IntFacts.eqm_trans.
Qed.

#[global] Instance eqm_add_Proper : Proper (eqm ==> eqm ==> eqm) Z.add.
Proof. intros a a' Ha b b' Hb. now apply IntFacts.eqm_add. Qed.

#[global] Instance eqm_sub_Proper : Proper (eqm ==> eqm ==> eqm) Z.sub.
Proof. intros a a' Ha b b' Hb. now apply IntFacts.eqm_sub. Qed.

#[global] Instance eqm_mul_Proper : Proper (eqm ==> eqm ==> eqm) Z.mul.
Proof. intros a a' Ha b b' Hb. now apply IntFacts.eqm_mul. Qed.

Lemma eqm_of_eq (p q : Z) : p = q -> eqm p q.
Proof. intros ->. apply IntFacts.eqm_refl. Qed.

(** Two wrapped expressions are equal when the expressions are equal as
    polynomials: modulo [2^32] the inner wraps are dropped, the rest is
    ring arithmetic. *)
Ltac wrap_ring :=
  unfold add, sub, mul;
  apply IntFacts.eqm_wrap;
  unfold int in *;
  repeat rewrite IntFacts.wrap_eqm;
  apply eqm_of_eq; ring.

Lemma add_assoc (a b c : int) : add (add a b) c = add a (add b c).
Proof. wrap_ring. Qed.

Lemma mul_assoc (a b c : int) : mul (mul a b) c = mul a (mul b c).
Proof. wrap_ring. Qed.

Lemma mul_add_distr (s a b : int) : mul s (add a b) = add (mul s a) (mul s b).
Proof. wrap_ring. Qed.

Lemma add_zero_r (a : int) : in_range a -> add a (wrap 0) = a.
Proof.
  intros Ha. rewrite <- (IntFacts.wrap_small a Ha) at 2.
  unfold add. rewrite wrap_add_r. apply (f_equal wrap). lia.
Qed.

Lemma sub_zero_r (a : int) : in_range a -> sub a (wrap 0) = a.
Proof.
  intros Ha. rewrite <- (IntFacts.wrap_small a Ha) at 2.
  unfold sub. rewrite wrap_sub_r. apply (f_equal wrap). lia.
Qed.

Lemma sub_diag (a : int) : sub a a = 0.
Proof. unfold sub. now rewrite Z.sub_diag. Qed.

Lemma add_sub (a b : int) : in_range a -> sub (add a b) b = a.
Proof.
  intros Ha. rewrite <- (IntFacts.wrap_small a Ha) at 2.
  unfold add, sub. rewrite wrap_sub_l. apply (f_equal wrap). lia.
Qed.

Lemma mul_one_l (a : int) : in_range a -> mul (wrap 1) a = a.
Proof.
  intros Ha. rewrite <- (IntFacts.wrap_small a Ha) at 2.
  unfold mul. rewrite wrap_mul_l. apply (f_equal wrap). lia.
Qed.

End IntAlgebra.

(** ** More on the arithmetic of [double] *)

Module DoubleAlgebra.

Import Double.

Lemma double_add_comm (a b : double) : add a b = add b a.
Proof.
  unfold add.
  destruct a as [sa | sa | | sa ma ea], b as [sb | sb | | sb mb eb];
    cbn [SFadd]; try reflexivity; try (destruct sa, sb; reflexivity).
  now rewrite (Z.min_comm eb ea), Z.add_comm.
Qed.

Lemma compare_cont_Eq_sym (p q : positive) :
  Pos.compare_cont Eq q p = CompOpp (Pos.compare_cont Eq p q).
Proof. apply Pos.compare_antisym. Qed.

Lemma eqb_sym (a b : double) : eqb a b = eqb b a.
Proof.
  unfold eqb, SFeqb.
  destruct a as [sa | sa | | sa ma ea], b as [sb | sb | | sb mb eb];
    cbn [SFcompare]; try reflexivity;
    try (destruct sa, sb; reflexivity); try (destruct sa; reflexivity);
    try (destruct sb; reflexivity).
  rewrite (Z.compare_antisym ea eb), (compare_cont_Eq_sym ma mb).
  destruct sa, sb; try reflexivity;
    destruct (ea ?= eb); cbn; try reflexivity;
    destruct (Pos.compare_cont Eq ma mb); reflexivity.
Qed.

(** Multiplication by [1.0] or by [-1.0] only sets the sign. *)
Lemma SFmul_unit (s0 s : bool) (m : positive) (e : Z) :
  bounded prec emax m e = true ->
  SFmul prec emax (S754_finite s0 4503599627370496 (-52)) (S754_finite s m e)
  = S754_finite (xorb s0 s) m e.
Proof.
  intros Hb.
  unfold bounded, canonical_mantissa in Hb.
  rewrite andb_true_iff, Z.eqb_eq, Z.leb_le, DoubleFacts.fexp_fx in Hb.
  destruct Hb as [Hc He].
  cbn [SFmul Pos.mul].
  unfold binary_round_aux, shr_fexp. rewrite !DoubleFacts.fexp_fx.
  cbn [Zdigits2 digits2_pos]. rewrite !Pos2Z.inj_succ. unfold Z.succ.
  match goal with
  | |- context [fx (?u + (-52 + e))] =>
      replace (u + (-52 + e)) with (Zpos (digits2_pos m) + e) by lia
  end.
  rewrite Hc.
  replace (e - (-52 + e)) with 52 by lia.
  cbn [shr shr_record_of_loc].
  cbn [iter_pos shr_1 orb].
  cbn [shr_m loc_of_shr_record shr_r shr_s round_nearest_even].
  cbn [Zdigits2]. replace (-52 + e + 52) with e by lia.
  rewrite DoubleFacts.fexp_fx, Hc, Z.sub_diag. cbn [shr shr_record_of_loc shr_m].
  apply Z.leb_le in He. now rewrite He.
Qed.

(** A mantissa in canonical form with an exponent in range is left as it
    is by rounding. *)
Lemma binary_round_aux_canonical (s : bool) (m : positive) (e : Z) :
  fx (Zpos (digits2_pos m) + e) = e -> e <= 971 ->
  binary_round_aux prec emax s (Zpos m) e loc_Exact = S754_finite s m e.
Proof.
  intros Hc He.
  unfold binary_round_aux, shr_fexp. rewrite !DoubleFacts.fexp_fx.
  cbn [Zdigits2]. rewrite Hc, Z.sub_diag.
  cbn [shr shr_record_of_loc shr_m loc_of_shr_record round_nearest_even].
  rewrite DoubleFacts.fexp_fx. cbn [Zdigits2]. rewrite Hc, Z.sub_diag.
  cbn [shr shr_record_of_loc shr_m].
  destruct (Z.leb_spec e (emax - prec)) as [_ | Hgt]; [reflexivity |].
  unfold emax, prec in Hgt. lia.
Qed.

Lemma iter_xO_pow (p k : positive) :
  Zpos (Pos.iter xO p k) = Zpos p * 2 ^ Zpos k.
Proof.
  induction k as [| k IH] using Pos.peano_ind.
  - cbn. lia.
  - rewrite Pos.iter_succ, Pos2Z.inj_xO, IH, Pos2Z.inj_succ, Z.pow_succ_r by lia.
    lia.
Qed.

Lemma digits_le_53 (p : positive) :
  Zpos p < 2 ^ 53 -> Zpos (digits2_pos p) <= 53.
Proof.
  intros Hp. pose proof (DoubleFacts.Zdigits2_log2 p) as Hd. cbn [Zdigits2] in Hd.
  rewrite Hd.
  assert (Z.log2 (Zpos p) < 53) by (apply Z.log2_lt_pow2; lia).
  lia.
Qed.

(** An integer of at most 53 bits is a double exactly: its conversion keeps
    the sign and the digits, shifted to fill the mantissa. *)
Lemma binary_round_exact (s : bool) (p : positive) :
  Zpos p < 2 ^ 53 ->
  exists (m : positive) (e : Z),
    binary_round prec emax s p 0 = S754_finite s m e /\
    -52 <= e <= 0 /\ Zpos m = Zpos p * 2 ^ (- e).
Proof.
  intros Hp. pose proof (digits_le_53 p Hp) as Hd.
  assert (Hd1 : 1 <= Zpos (digits2_pos p)) by lia.
  unfold binary_round, shl_align. rewrite DoubleFacts.fexp_fx.
  replace (fx (Zpos (digits2_pos p) + 0)) with (Zpos (digits2_pos p) - 53)
    by (unfold fx; lia).
  destruct (Zpos (digits2_pos p) - 53 - 0) as [| k | k] eqn:E; try lia.
  - exists p, 0. split; [| split; [lia | cbn; lia]].
    apply binary_round_aux_canonical; [unfold fx; lia | lia].
  - exists (Pos.iter xO p k), (Zpos (digits2_pos p) - 53).
    split; [| split; [lia |]].
    + apply binary_round_aux_canonical; [| lia].
      rewrite DoubleFacts.digits2_pos_iter_xO. unfold fx. lia.
    + rewrite iter_xO_pow. f_equal. f_equal. lia.
Qed.

Lemma of_Z_pos (p : positive) :
  Zpos p < 2 ^ 53 ->
  exists (m : positive) (e : Z),
    of_Z (Zpos p) = S754_finite false m e /\ -52 <= e <= 0 /\
    Zpos m = Zpos p * 2 ^ (- e).
Proof. apply (binary_round_exact false). Qed.

Lemma of_Z_neg (p : positive) :
  Zpos p < 2 ^ 53 ->
  exists (m : positive) (e : Z),
    of_Z (Zneg p) = S754_finite true m e /\ -52 <= e <= 0 /\
    Zpos m = Zpos p * 2 ^ (- e).
Proof. apply (binary_round_exact true). Qed.

(** The conversion is one to one below [2^53]. *)
Lemma of_Z_inj (a b : Z) :
  Z.abs a < 2 ^ 53 -> Z.abs b < 2 ^ 53 -> of_Z a = of_Z b -> a = b.
Proof.
  intros Ha Hb E.
  assert (Hpow : forall e : Z, e <= 0 -> 0 < 2 ^ (- e))
    by (intros e He; apply Z.pow_pos_nonneg; lia).
  destruct a as [| pa | pa], b as [| pb | pb]; cbn [Z.abs] in Ha, Hb.
  - reflexivity.
  - destruct (of_Z_pos pb Hb) as (mb & eb & Eb & _).
    rewrite Eb in E. discriminate E.
  - destruct (of_Z_neg pb Hb) as (mb & eb & Eb & _).
    rewrite Eb in E. discriminate E.
  - destruct (of_Z_pos pa Ha) as (ma & ea & Ea & _).
    rewrite Ea in E. discriminate E.
  - destruct (of_Z_pos pa Ha) as (ma & ea & Ea & Hea & Hma).
    destruct (of_Z_pos pb Hb) as (mb & eb & Eb & Heb & Hmb).
    rewrite Ea, Eb in E. inversion E. subst.
    specialize (Hpow eb ltac:(lia)).
    f_equal. apply Pos2Z.inj. nia.
  - destruct (of_Z_pos pa Ha) as (ma & ea & Ea & _).
    destruct (of_Z_neg pb Hb) as (mb & eb & Eb & _).
    rewrite Ea, Eb in E. discriminate E.
  - destruct (of_Z_neg pa Ha) as (ma & ea & Ea & _).
    rewrite Ea in E. discriminate E.
  - destruct (of_Z_neg pa Ha) as (ma & ea & Ea & _).
    destruct (of_Z_pos pb Hb) as (mb & eb & Eb & _).
    rewrite Ea, Eb in E. discriminate E.
  - destruct (of_Z_neg pa Ha) as (ma & ea & Ea & Hea & Hma).
    destruct (of_Z_neg pb Hb) as (mb & eb & Eb & Heb & Hmb).
    rewrite Ea, Eb in E. inversion E. subst.
    specialize (Hpow eb ltac:(lia)).
    f_equal. apply Pos2Z.inj. nia.
Qed.

(** *** Signs *)

Lemma binary_round_aux_nonneg (m e : Z) (l : location) :
  nan_or_nonneg (binary_round_aux prec emax false m e l) = true.
Proof.
  unfold binary_round_aux.
  destruct (shr_fexp prec emax m e l) as [mrs1 e1].
  destruct (shr_fexp prec emax _ e1 loc_Exact) as [mrs2 e2].
  destruct (shr_m mrs2); try reflexivity.
  destruct (e2 <=? emax - prec); reflexivity.
Qed.

Lemma binary_round_nonneg (p : positive) (e : Z) :
  nan_or_nonneg (binary_round prec emax false p e) = true.
Proof.
  unfold binary_round. destruct (shl_align p e _) as [mz ez].
  apply binary_round_aux_nonneg.
Qed.

Lemma mul_self_nonneg (a : double) : nan_or_nonneg (mul a a) = true.
Proof.
  unfold mul. destruct a as [s | s | | s m e]; cbn [SFmul];
    rewrite ?xorb_nilpotent; try reflexivity.
  apply binary_round_aux_nonneg.
Qed.

Lemma add_nonneg (a b : double) :
  nan_or_nonneg a = true -> nan_or_nonneg b = true ->
  nan_or_nonneg (add a b) = true.
Proof.
  unfold add.
  destruct a as [[] | [] | | [] ma ea], b as [[] | [] | | [] mb eb];
    cbn [nan_or_nonneg negb]; intros Ha Hb; try discriminate;
    cbn [SFadd]; try reflexivity.
  cbn [cond_Zopp Z.add binary_normalize]. apply binary_round_nonneg.
Qed.

Lemma sqrt_nonneg (a : double) :
  nan_or_nonneg a = true -> nan_or_nonneg (sqrt a) = true.
Proof.
  unfold sqrt.
  destruct a as [[] | [] | | [] m e]; cbn [nan_or_nonneg negb]; intros Ha;
    try discriminate; cbn [SFsqrt]; try reflexivity.
  destruct (SFsqrt_core_binary prec emax (Zpos m) e) as [[mz ez] lz].
  apply binary_round_aux_nonneg.
Qed.

(** The square root of a negative number is a NaN. *)
Lemma sqrt_of_negative (n : Z) :
  - 2 ^ 53 < n < 0 -> sqrt (of_Z n) = nan.
Proof.
  intros Hn. destruct n as [| p | p]; try lia.
  destruct (of_Z_neg p ltac:(lia)) as (m & e & E & _).
  now rewrite E.
Qed.

Lemma of_Z_nonneg (n : Z) : 0 <= n -> nan_or_nonneg (of_Z n) = true.
Proof.
  intros Hn. destruct n as [| p | p]; try lia; [reflexivity |].
  apply binary_round_nonneg.
Qed.

(** *** Differences and squares *)

Lemma sub_self (a : double) :
  sub a a = if is_finite a then S754_zero false else nan.
Proof.
  unfold sub. destruct a as [[] | [] | | s m e]; cbn [SFsub is_finite];
    try reflexivity.
  now rewrite Z.sub_diag.
Qed.

Lemma mul_negated (l r : double) :
  negated l r -> mul l l = mul r r.
Proof.
  unfold mul. intros [-> | [Hl Hr]].
  - destruct l as [s | s | | s m e]; cbn [SFopp SFmul]; try reflexivity;
      now destruct s.
  - destruct l, r; try discriminate. cbn [SFmul].
    now rewrite !xorb_nilpotent.
Qed.

Lemma double_add_zero_r (a : double) :
  same_number (add a (S754_zero false)) a = true /\
  (a <> S754_zero true -> add a (S754_zero false) = a).
Proof.
  unfold add, same_number.
  destruct a as [[] | [] | | s m e]; cbn [SFadd is_nan andb orb]; split;
    try reflexivity; try (intros _; reflexivity);
    try (intros H; congruence).
  apply DoubleFacts.SFeqb_finite_refl.
Qed.

End DoubleAlgebra.

(** ** Sums and differences of vectors *)

Lemma vector_ext {T : Type} (a b c a' b' c' : T) :
  a = a' -> b = b' -> c = c' -> mkVector3D a b c = mkVector3D a' b' c'.
Proof. now intros -> -> ->. Qed.

(** X1: the sum of two vectors does not depend on their order, on [int] and
    on [double]. *)
Theorem operator_plus_commutative :
  (forall A B : Vector3D int, operator_plus A B = operator_plus B A) /\
  (forall A B : Vector3D double, operator_plus A B = operator_plus B A).
Proof.
  split; intros [a1 a2 a3] [b1 b2 b3]; unfold operator_plus; cbn;
    apply vector_ext;
    first [apply IntFacts.int_add_comm | apply DoubleAlgebra.double_add_comm].
Qed.

(** X2: on [int] the sum is associative, wrap-around included; on [double]
    it is not, a small term being absorbed by a large one. *)
Theorem operator_plus_associativity :
  (forall A B C : Vector3D int,
      operator_plus (operator_plus A B) C = operator_plus A (operator_plus B C)) /\
  (let d := Double.of_Z in
   let A := mkVector3D (d (2 ^ 53)) (d 0) (d 0) in
   let B := mkVector3D (d 1) (d 0) (d 0) in
   let C := mkVector3D (d (- 2 ^ 53)) (d 0) (d 0) in
   operator_plus (operator_plus A B) C = mkVector3D (d 0) (d 0) (d 0) /\
   operator_plus A (operator_plus B C) = mkVector3D (d 1) (d 0) (d 0)).
Proof.
  split.
  - intros [a1 a2 a3] [b1 b2 b3] [c1 c2 c3]. unfold operator_plus. cbn.
    apply vector_ext; apply IntAlgebra.add_assoc.
  - vm_compute. split; reflexivity.
Qed.

(** X3: the default vector is neutral: added to or subtracted from a vector
    of [int] it leaves the vector as it is; added to a vector of [double]
    it leaves every component the same number (a negative zero becomes the
    positive one). *)
Theorem default_vector_is_neutral :
  (forall A : Vector3D int,
      Forall3D Int.in_range A ->
      operator_plus A Vector3D_default = A /\
      operator_plus Vector3D_default A = A /\
      operator_minus A Vector3D_default = A) /\
  (forall A : Vector3D double,
      same_numbers (operator_plus A Vector3D_default) A /\
      (Forall3D (fun d => d <> S754_zero true) A ->
       operator_plus A Vector3D_default = A)).
Proof.
  split.
  - intros [a1 a2 a3] (H1 & H2 & H3). cbn [m_x m_y m_z] in *.
    unfold operator_plus, operator_minus, Vector3D_default. cbn.
    repeat split; apply vector_ext;
      rewrite ?(IntFacts.int_add_comm (Int.wrap 0));
      first [now apply IntAlgebra.add_zero_r | now apply IntAlgebra.sub_zero_r].
  - intros [a1 a2 a3]. unfold operator_plus, Vector3D_default, same_numbers.
    cbn [x y z m_x m_y m_z add of_int Numeric_double].
    change (Double.of_Z 0) with (S754_zero false).
    split.
    + repeat split; apply DoubleAlgebra.double_add_zero_r.
    + intros (H1 & H2 & H3). cbn [m_x m_y m_z] in *.
      apply vector_ext; now apply DoubleAlgebra.double_add_zero_r.
Qed.

Lemma default_vector_is_neutral_witness :
  let A : Vector3D int := mkVector3D 2147483647 (-2147483648) 5 in
  operator_plus A Vector3D_default = A /\
  operator_plus Vector3D_default A = A /\
  operator_minus A Vector3D_default = A.
Proof.
  apply (proj1 default_vector_is_neutral
           (mkVector3D 2147483647 (-2147483648) 5)).
  unfold Forall3D, Int.in_range; vm_compute; intuition discriminate.
Defined.

(** X4: on [int], adding a vector and subtracting it again returns the
    vector started from, and a vector minus itself is the default
    vector. *)
Theorem add_then_sub_int :
  forall A B : Vector3D int,
    Forall3D Int.in_range A ->
    operator_minus (operator_plus A B) B = A /\
    operator_minus A A = Vector3D_default /\
    operator_minus B B = Vector3D_default.
Proof.
  intros [a1 a2 a3] [b1 b2 b3] (H1 & H2 & H3). cbn [m_x m_y m_z] in *.
  unfold operator_plus, operator_minus, Vector3D_default. cbn.
  repeat split; apply vector_ext;
    first [now apply IntAlgebra.add_sub | apply IntAlgebra.sub_diag].
Qed.

Lemma add_then_sub_int_witness :
  let A : Vector3D int := mkVector3D 2147483647 (-2147483648) 5 in
  let B : Vector3D int := mkVector3D 1 (-1) 7 in
  operator_plus A B = mkVector3D (-2147483648) 2147483647 12 /\
  operator_minus (operator_plus A B) B = A.
Proof.
  split; [vm_compute; reflexivity |].
  apply (add_then_sub_int (mkVector3D 2147483647 (-2147483648) 5)
                          (mkVector3D 1 (-1) 7)).
  unfold Forall3D, Int.in_range; vm_compute; intuition discriminate.
Defined.

(** X5: swapping the operands of a difference negates it: on [int],
    [A - B] is [-1 * (B - A)]; on [double] the components of the two are
    the same numbers, up to the sign of a zero. *)
Theorem operator_minus_antisymmetric :
  (forall A B : Vector3D int,
      operator_minus A B = operator_mul_sv (of_int (-1)) (operator_minus B A)) /\
  (forall A B : Vector3D double,
      Forall3D (fun d => Double.valid d = true) A ->
      Forall3D (fun d => Double.valid d = true) B ->
      same_numbers (operator_minus A B)
                   (operator_mul_sv (of_int (-1)) (operator_minus B A))).
Proof.
  split.
  - intros [a1 a2 a3] [b1 b2 b3]. unfold operator_minus, operator_mul_sv. cbn.
    apply vector_ext; apply IntFacts.sub_anticomm.
  - intros [a1 a2 a3] [b1 b2 b3] (Ha1 & Ha2 & Ha3) (Hb1 & Hb2 & Hb3).
    cbn [m_x m_y m_z] in *.
    unfold operator_minus, operator_mul_sv, same_numbers.
    cbn [x y z m_x m_y m_z sub mul of_int Numeric_double].
    change (Double.of_Z (-1)) with Double.minus_one.
    repeat split; now apply DoubleFacts.sub_same_number_neg_mul.
Qed.

Lemma operator_minus_antisymmetric_witness :
  let d := Double.of_Z in
  let A := mkVector3D (d 1) (d 2) (d 3) in
  let B := mkVector3D (d 1) (d 5) (d (-6)) in
  operator_minus A B = mkVector3D (d 0) (d (-3)) (d 9) /\
  same_numbers (operator_minus A B)
               (operator_mul_sv (of_int (-1)) (operator_minus B A)).
Proof.
  split; [vm_compute; reflexivity |].
  apply (proj2 operator_minus_antisymmetric
           (mkVector3D (Double.of_Z 1) (Double.of_Z 2) (Double.of_Z 3))
           (mkVector3D (Double.of_Z 1) (Double.of_Z 5) (Double.of_Z (-6))));
    vm_compute; repeat split.
Defined.

(** ** Products and quotients *)

(** X6: the component-wise product does not depend on the order of its
    operands, on [int] and on [double]; on [int] it is associative; and the
    product by the vector (s, s, s) is the product by the scalar s. *)
Theorem operator_mul_vv_properties :
  (forall A B : Vector3D int, operator_mul_vv A B = operator_mul_vv B A) /\
  (forall A B : Vector3D double, operator_mul_vv A B = operator_mul_vv B A) /\
  (forall A B C : Vector3D int,
      operator_mul_vv (operator_mul_vv A B) C
      = operator_mul_vv A (operator_mul_vv B C)) /\
  (forall (T : Type) (N : Numeric T) (s : T) (A : Vector3D T),
      operator_mul_vv (mkVector3D s s s) A = operator_mul_sv s A).
Proof.
  split; [| split; [| split]].
  - intros [a1 a2 a3] [b1 b2 b3]. unfold operator_mul_vv. cbn.
    apply vector_ext; apply IntFacts.int_mul_comm.
  - intros [a1 a2 a3] [b1 b2 b3]. unfold operator_mul_vv. cbn.
    apply vector_ext; apply DoubleFacts.double_mul_comm.
  - intros [a1 a2 a3] [b1 b2 b3] [c1 c2 c3]. unfold operator_mul_vv. cbn.
    apply vector_ext; apply IntAlgebra.mul_assoc.
  - intros T N s [a1 a2 a3]. reflexivity.
Qed.

Lemma double_mul_one (a : double) :
  Double.valid a = true -> Double.mul (Double.of_Z 1) a = a.
Proof.
  change (Double.of_Z 1) with (S754_finite false 4503599627370496 (-52)).
  destruct a as [s | s | | s m e]; try reflexivity.
  intros Hv. apply (DoubleAlgebra.SFmul_unit false s m e Hv).
Qed.

(** X7: scaling by one leaves a vector as it is, on [int] and on
    [double]; on [int] scaling twice is scaling by the product, and scaling
    a sum is summing the scaled vectors. *)
Theorem operator_mul_sv_properties :
  (forall A : Vector3D int,
      Forall3D Int.in_range A ->
      operator_mul_sv (of_int 1) A = A /\ operator_mul_vs A (of_int 1) = A) /\
  (forall A : Vector3D double,
      Forall3D (fun d => Double.valid d = true) A ->
      operator_mul_sv (of_int 1) A = A /\ operator_mul_vs A (of_int 1) = A) /\
  (forall (s t : int) (A B : Vector3D int),
      operator_mul_sv s (operator_mul_sv t A) = operator_mul_sv (mul s t) A /\
      operator_mul_sv s (operator_plus A B)
      = operator_plus (operator_mul_sv s A) (operator_mul_sv s B)).
Proof.
  split; [| split].
  - intros [a1 a2 a3] (H1 & H2 & H3). cbn [m_x m_y m_z] in *.
    unfold operator_mul_sv, operator_mul_vs. cbn.
    split; apply vector_ext; now apply IntAlgebra.mul_one_l.
  - intros [a1 a2 a3] (H1 & H2 & H3). cbn [m_x m_y m_z] in *.
    unfold operator_mul_sv, operator_mul_vs.
    cbn [x y z m_x m_y m_z mul of_int Numeric_double].
    split; apply vector_ext; now apply double_mul_one.
  - intros s t [a1 a2 a3] [b1 b2 b3].
    unfold operator_mul_sv, operator_plus. cbn.
    split; apply vector_ext;
      first [ symmetry; apply IntAlgebra.mul_assoc
            | apply IntAlgebra.mul_add_distr ].
Qed.

Lemma operator_mul_sv_properties_witness :
  let d := Double.of_Z in
  let A := mkVector3D (d 3) (S754_zero true) Double.neg_inf in
  operator_mul_sv (of_int 1) A = A /\ operator_mul_vs A (of_int 1) = A.
Proof.
  apply (proj1 (proj2 operator_mul_sv_properties)
           (mkVector3D (Double.of_Z 3) (S754_zero true) Double.neg_inf)).
  vm_compute; repeat split.
Defined.

Lemma div_zero_cases (a : double) (s : bool) :
  Double.div a (S754_zero s) =
  match a with
  | S754_nan | S754_zero _ => Double.nan
  | S754_infinity sa | S754_finite sa _ _ => S754_infinity (xorb sa s)
  end.
Proof. now destruct a. Qed.

(** X8: on [double] a division by zero gives no error: a component that is
    zero or a NaN gives a NaN, any other gives the infinity whose sign is
    the sign of the component, flipped for the negative zero.  So it is for
    the division by a scalar and, component by component, for the division
    by a vector. *)
Theorem division_by_zero_on_double :
  (forall (A : Vector3D double) (s : bool) (k : double),
      let q := fun a : double =>
                 match a with
                 | S754_nan | S754_zero _ => Double.nan
                 | S754_infinity sa | S754_finite sa _ _ =>
                     S754_infinity (xorb sa s)
                 end in
      operator_div_vs A (S754_zero s) = mkVector3D (q (x A)) (q (y A)) (q (z A)) /\
      operator_div_vv A (mkVector3D (S754_zero s) k k)
        = mkVector3D (q (x A)) (div (y A) k) (div (z A) k) /\
      operator_div_vv A (mkVector3D k (S754_zero s) k)
        = mkVector3D (div (x A) k) (q (y A)) (div (z A) k) /\
      operator_div_vv A (mkVector3D k k (S754_zero s))
        = mkVector3D (div (x A) k) (div (y A) k) (q (z A))) /\
  (forall (A : Vector3D double) (s : bool),
      Forall3D (fun d => Double.is_nan d = true \/ Double.is_infinite d = true)
               (operator_div_vs A (S754_zero s))).
Proof.
  split.
  - intros [a1 a2 a3] s k q. unfold operator_div_vs, operator_div_vv.
    cbn [x y z m_x m_y m_z div Divisible_double].
    rewrite !div_zero_cases. repeat split.
  - intros [a1 a2 a3] s. unfold operator_div_vs, Forall3D.
    cbn [m_x m_y m_z div Divisible_double].
    repeat split; apply DoubleFacts.div_by_zero.
Qed.

(** ** Comparison *)

(** X9: on [int], [operator==] is true exactly when the two vectors are the
    same, and false exactly when they differ. *)
Theorem operator_eq_int_decides_equality :
  forall A B : Vector3D int,
    (operator_eq A B = true <-> A = B) /\
    (operator_eq A B = false <-> A <> B).
Proof.
  intros A B. pose proof (operator_eq_int_iff A B) as H.
  split; [exact H |].
  destruct (operator_eq A B) eqn:E; split.
  - discriminate.
  - intros Hne. exfalso. apply Hne. now apply H.
  - intros _ E'. apply H in E'. discriminate.
  - reflexivity.
Qed.

Lemma operator_eq_double_sym (A B : Vector3D double) :
  operator_eq A B = operator_eq B A.
Proof.
  unfold operator_eq. cbn [eqb Numeric_double].
  now rewrite (DoubleAlgebra.eqb_sym (x A)), (DoubleAlgebra.eqb_sym (y A)),
              (DoubleAlgebra.eqb_sym (z A)).
Qed.

(** X10: on [double], [operator==] is symmetric; a vector equals itself
    exactly when it has no NaN component; two vectors that compare equal
    have no NaN component, and need not be the same: the zeros of either
    sign compare equal. *)
Theorem operator_eq_on_double :
  (forall A B : Vector3D double, operator_eq A B = operator_eq B A) /\
  (forall A : Vector3D double,
      operator_eq A A = true <-> Forall3D (fun d => Double.is_nan d = false) A) /\
  (forall A B : Vector3D double,
      operator_eq A B = true ->
      Forall3D (fun d => Double.is_nan d = false) A /\
      Forall3D (fun d => Double.is_nan d = false) B) /\
  (forall s1 s2 s3 t1 t2 t3 : bool,
      operator_eq (mkVector3D (S754_zero s1) (S754_zero s2) (S754_zero s3))
                  (mkVector3D (S754_zero t1) (S754_zero t2) (S754_zero t3))
      = true).
Proof.
  split; [exact operator_eq_double_sym |].
  split; [exact operator_eq_double_refl |].
  split.
  - intros [a1 a2 a3] [b1 b2 b3] E.
    apply operator_eq_true_iff in E. cbn [x y z m_x m_y m_z eqb Numeric_double] in E.
    destruct E as (E1 & E2 & E3).
    apply DoubleFacts.eqb_true_not_nan in E1, E2, E3.
    unfold Forall3D. cbn [m_x m_y m_z]. tauto.
  - intros. reflexivity.
Qed.

(** ** Lengths and products of vectors *)

Lemma scalarProduct_int_dot (A B : Vector3D int) :
  scalarProduct A B = Double.of_Z (int_dot A B).
Proof. reflexivity. Qed.

Lemma in_range_53 (v : Z) : Int.in_range v -> Z.abs v < 2 ^ 53.
Proof.
  unfold Int.in_range, Int.min_signed, Int.max_signed.
  rewrite IntFacts.half_modulus_eq. change (2 ^ 53) with 9007199254740992. lia.
Qed.

Lemma sqrt_of_int_sign (v : Z) :
  Int.in_range v -> nan_or_nonneg (Double.sqrt (Double.of_Z v)) = true.
Proof.
  intros Hv. pose proof (in_range_53 v Hv) as H53.
  destruct (Z.lt_ge_cases v 0) as [Hneg | Hpos].
  - rewrite DoubleAlgebra.sqrt_of_negative by lia. reflexivity.
  - apply DoubleAlgebra.sqrt_nonneg, DoubleAlgebra.of_Z_nonneg. lia.
Qed.

Lemma sqrt_of_squares_sign (a b c : double) :
  nan_or_nonneg
    (Double.sqrt (Double.add (Double.add (Double.mul a a) (Double.mul b b))
                             (Double.mul c c))) = true.
Proof.
  apply DoubleAlgebra.sqrt_nonneg.
  repeat apply DoubleAlgebra.add_nonneg; apply DoubleAlgebra.mul_self_nonneg.
Qed.

(** X11: the module of a vector and the distance of two vectors are never
    below zero: each is a NaN or a double whose sign bit is clear, on [int]
    and on [double].  On [int] the NaN does occur, when the sum of the
    squares wraps around to a negative value. *)
Theorem module_and_distance_sign :
  (forall A : Vector3D int, nan_or_nonneg (module A) = true) /\
  (forall A : Vector3D double, nan_or_nonneg (module A) = true) /\
  (forall A B : Vector3D int, nan_or_nonneg (distance A B) = true) /\
  (forall A B : Vector3D double, nan_or_nonneg (distance A B) = true) /\
  module (mkVector3D 46341 0 0 : Vector3D int) = Double.nan.
Proof.
  split; [| split; [| split; [| split]]].
  - intros A. apply sqrt_of_int_sign, IntFacts.wrap_in_range.
  - intros A. apply sqrt_of_squares_sign.
  - intros A B. apply sqrt_of_int_sign, IntFacts.wrap_in_range.
  - intros A B. apply sqrt_of_squares_sign.
  - vm_compute. reflexivity.
Qed.

(** X12: the distance does not depend on the order of the two vectors, on
    [int] and on [double]. *)
Theorem distance_symmetric :
  (forall A B : Vector3D int, distance A B = distance B A) /\
  (forall A B : Vector3D double, distance A B = distance B A).
Proof.
  split.
  - intros [a1 a2 a3] [b1 b2 b3]. unfold distance.
    cbn [x y z m_x m_y m_z add sub mul to_double Numeric_int].
    assert (Hsq : forall a b : int,
               Int.mul (Int.sub a b) (Int.sub a b)
               = Int.mul (Int.sub b a) (Int.sub b a))
      by (intros a b; IntAlgebra.wrap_ring).
    now rewrite (Hsq a1 b1), (Hsq a2 b2), (Hsq a3 b3).
  - intros [a1 a2 a3] [b1 b2 b3]. unfold distance.
    cbn [x y z m_x m_y m_z add sub mul to_double Numeric_double].
    assert (Hsq : forall a b : double,
               Double.mul (Double.sub a b) (Double.sub a b)
               = Double.mul (Double.sub b a) (Double.sub b a))
      by (intros a b; apply DoubleAlgebra.mul_negated, DoubleFacts.SFsub_swap).
    now rewrite (Hsq a1 b1), (Hsq a2 b2), (Hsq a3 b3).
Qed.

(** X13: the distance of a vector to itself is zero on [int]; on [double]
    it is zero when the three components are finite numbers, and a NaN as
    soon as one of them is an infinity or a NaN. *)
Theorem distance_to_itself :
  (forall A : Vector3D int, distance A A = Double.of_Z 0) /\
  (forall A : Vector3D double,
      distance A A =
      if is_finite (x A) && is_finite (y A) && is_finite (z A)
      then Double.of_Z 0 else Double.nan).
Proof.
  split.
  - intros [a1 a2 a3]. unfold distance.
    cbn [x y z m_x m_y m_z add sub mul to_double Numeric_int].
    now rewrite !IntAlgebra.sub_diag.
  - intros [a1 a2 a3]. unfold distance.
    cbn [x y z m_x m_y m_z add sub mul to_double Numeric_double].
    rewrite !DoubleAlgebra.sub_self.
    destruct (is_finite a1), (is_finite a2), (is_finite a3); reflexivity.
Qed.

(** X14: on [int] the cross product of a vector with itself is the zero
    vector, wrap-around included, and [operator==] says so. *)
Theorem crossProduct_with_itself :
  forall A : Vector3D int,
    crossProduct A A = mkVector3D 0 0 0 /\
    crossProduct A A = Vector3D_default /\
    operator_eq (crossProduct A A) Vector3D_default = true.
Proof.
  intros [a1 a2 a3].
  assert (E : crossProduct (mkVector3D a1 a2 a3 : Vector3D int) (mkVector3D a1 a2 a3)
              = mkVector3D 0 0 0).
  { unfold crossProduct. cbn.
    rewrite (IntFacts.int_mul_comm a3 a2), (IntFacts.int_mul_comm a1 a3),
            (IntFacts.int_mul_comm a2 a1).
    now rewrite !IntAlgebra.sub_diag. }
  split; [exact E |]. split; [exact E |].
  rewrite E. reflexivity.
Qed.

(** X15: on [int] the cross product is orthogonal to both of its operands:
    its scalar product with either is zero, wrap-around included. *)
Theorem crossProduct_orthogonal_int :
  forall A B : Vector3D int,
    scalarProduct A (crossProduct A B) = Double.of_Z 0 /\
    scalarProduct B (crossProduct A B) = Double.of_Z 0 /\
    scalarProduct (crossProduct A B) A = Double.of_Z 0 /\
    scalarProduct (crossProduct A B) B = Double.of_Z 0.
Proof.
  intros [a1 a2 a3] [b1 b2 b3]. rewrite !scalarProduct_int_dot.
  unfold int_dot, crossProduct. cbn [x y z m_x m_y m_z sub mul Numeric_int].
  repeat split; apply (f_equal Double.of_Z);
    change 0 with (Int.wrap 0); IntAlgebra.wrap_ring.
Qed.

(** X16: on [int] the cross product is linear in each operand: it
    distributes over the sum on either side, and a scalar factor of the
    first operand comes out. *)
Theorem crossProduct_bilinear_int :
  forall (s : int) (A B C : Vector3D int),
    crossProduct (operator_plus A B) C
      = operator_plus (crossProduct A C) (crossProduct B C) /\
    crossProduct A (operator_plus B C)
      = operator_plus (crossProduct A B) (crossProduct A C) /\
    crossProduct (operator_mul_sv s A) B = operator_mul_sv s (crossProduct A B).
Proof.
  intros s [a1 a2 a3] [b1 b2 b3] [c1 c2 c3].
  unfold crossProduct, operator_plus, operator_mul_sv.
  cbn [x y z m_x m_y m_z add sub mul Numeric_int].
  repeat split; apply vector_ext; IntAlgebra.wrap_ring.
Qed.

(** X17: on [int] the conversion of the scalar product to [double] loses
    nothing: two scalar products are the same double exactly when the sums
    computed in [int] are the same. *)
Theorem scalarProduct_int_exact :
  forall A B C D : Vector3D int,
    scalarProduct A B = scalarProduct C D <-> int_dot A B = int_dot C D.
Proof.
  intros A B C D. rewrite !scalarProduct_int_dot. split.
  - apply DoubleAlgebra.of_Z_inj; apply in_range_53, IntFacts.wrap_in_range.
  - now intros ->.
Qed.

(** X18: with components between -26754 and 26754 nothing wraps: on [int]
    the scalar product is the conversion of the true sum of products, and
    the module the square root of the true sum of squares. *)
Theorem small_vectors_do_not_wrap :
  forall A B : Vector3D int,
    Forall3D small A -> Forall3D small B ->
    scalarProduct A B
      = Double.of_Z (m_x A * m_x B + m_y A * m_y B + m_z A * m_z B) /\
    module A
      = Double.sqrt (Double.of_Z (m_x A * m_x A + m_y A * m_y A + m_z A * m_z A)).
Proof.
  intros [a1 a2 a3] [b1 b2 b3] (Ha1 & Ha2 & Ha3) (Hb1 & Hb2 & Hb3).
  cbn [m_x m_y m_z] in *. unfold small in *.
  assert (Hprod : forall u v : Z,
             -26754 <= u <= 26754 -> -26754 <= v <= 26754 ->
             -715776516 <= u * v <= 715776516) by (intros; nia).
  assert (Hsum : forall u1 v1 u2 v2 u3 v3 : Z,
             -26754 <= u1 <= 26754 -> -26754 <= v1 <= 26754 ->
             -26754 <= u2 <= 26754 -> -26754 <= v2 <= 26754 ->
             -26754 <= u3 <= 26754 -> -26754 <= v3 <= 26754 ->
             Int.add (Int.add (Int.mul u1 v1) (Int.mul u2 v2)) (Int.mul u3 v3)
             = u1 * v1 + u2 * v2 + u3 * v3).
  { intros u1 v1 u2 v2 u3 v3 H1 H1' H2 H2' H3 H3'.
    pose proof (Hprod u1 v1 H1 H1'). pose proof (Hprod u2 v2 H2 H2').
    pose proof (Hprod u3 v3 H3 H3').
    unfold Int.add, Int.mul.
    rewrite (IntFacts.wrap_small (u1 * v1)), (IntFacts.wrap_small (u2 * v2)),
            (IntFacts.wrap_small (u3 * v3)), (IntFacts.wrap_small (u1 * v1 + u2 * v2)),
            IntFacts.wrap_small; try reflexivity;
      unfold Int.in_range, Int.min_signed, Int.max_signed;
      rewrite IntFacts.half_modulus_eq; lia. }
  split.
  - rewrite scalarProduct_int_dot. unfold int_dot. cbn [m_x m_y m_z].
    now rewrite Hsum.
  - unfold module. cbn [m_x m_y m_z add mul to_double Numeric_int].
    unfold Int.to_double. now rewrite Hsum.
Qed.

Lemma small_vectors_do_not_wrap_witness :
  let A : Vector3D int := mkVector3D 26754 (-26754) 26754 in
  scalarProduct A A = Double.of_Z 2147329548 /\
  module A = Double.sqrt (Double.of_Z 2147329548).
Proof.
  apply (small_vectors_do_not_wrap (mkVector3D 26754 (-26754) 26754)
                                   (mkVector3D 26754 (-26754) 26754));
    unfold Forall3D, small; cbn; lia.
Defined.

(** ** The setters together *)

(** X19: a setter overrides what the same setter stored before, setters of
    different components commute, storing the value a component already
    has changes nothing, and the three setters in a row replace the whole
    vector. *)
Theorem setters_compose :
  forall (T : Type) (A : Vector3D T) (u v w : T),
    (setX (setX A u) v = setX A v /\ setY (setY A u) v = setY A v /\
     setZ (setZ A u) v = setZ A v) /\
    (setX (setY A u) v = setY (setX A v) u /\
     setX (setZ A u) v = setZ (setX A v) u /\
     setY (setZ A u) v = setZ (setY A v) u) /\
    (setX A (x A) = A /\ setY A (y A) = A /\ setZ A (z A) = A) /\
    setZ (setY (setX A u) v) w = mkVector3D u v w.
Proof.
  intros T [a b c] u v w. cbn. repeat split.
Qed.

(** ** More on the stream operators *)

Module StreamEdge.

Lemma space_not_digit (sp : ascii -> bool) (c : ascii) :
  keeps_numbers sp -> sp c = true -> is_digit c = false.
Proof.
  intros [Hdig _] Hc. destruct (is_digit c) eqn:E; [| reflexivity].
  rewrite (Hdig c E) in Hc. discriminate.
Qed.

Lemma spaces_end_field (sp : ascii -> bool) (w r : list ascii) :
  keeps_numbers sp -> Forall (fun c => sp c = true) w -> w <> [] ->
  ends_field (w ++ r) /\ at_end (w ++ r) = false.
Proof.
  intros Hsp Hw Hne. destruct w as [| c w]; [contradiction |].
  inversion Hw; subst. cbn. split; [| reflexivity].
  now apply (space_not_digit sp).
Qed.

Lemma skipws_all (sp : ascii -> bool) (w : list ascii) :
  Forall (fun c => sp c = true) w -> skipws sp w = [].
Proof.
  intros Hw. induction Hw as [| c w Hc _ IH]; cbn [skipws];
    [reflexivity | now rewrite Hc].
Qed.

(** A comma met by the extractor of the classic locale: nothing is
    consumed, zero is stored and the fail bit is set. *)
Lemma extract_at_comma (tail : list ascii) (v : int) :
  extract_int (mk_istream (comma :: tail) false false classic_space) v
  = (mk_istream (comma :: tail) true false classic_space, 0).
Proof. reflexivity. Qed.

Lemma extract_not_good (ins : istream) (v : int) :
  good ins = false ->
  extract_int ins v = (mk_istream (rdbuf ins) true (eofbit ins) (isspace ins), v).
Proof. intros H. unfold extract_int. now rewrite H. Qed.

Lemma put_int_output_chars (v : int) : forallb output_char (put_int v) = true.
Proof.
  apply forallb_forall. intros c Hc.
  pose proof (StreamFacts.put_int_chars v) as Hall. rewrite Forall_forall in Hall.
  unfold output_char. destruct (Hall c Hc) as [Hd | ->]; [now rewrite Hd | reflexivity].
Qed.

Lemma put_int_no_comma (v : int) : filter is_comma (put_int v) = [].
Proof.
  pose proof (StreamFacts.put_int_chars v) as Hall.
  induction Hall as [| c l Hc _ IH]; [reflexivity |].
  cbn [filter]. rewrite IH.
  destruct Hc as [Hd | ->]; [now rewrite (StreamFacts.digit_not_comma c Hd) | reflexivity].
Qed.

End StreamEdge.

(** X20: the text the output operator writes for a vector of [int] is not
    read back by the input operator of a stream of the classic locale: the
    first component is read, the extraction of the second stops at the
    comma, stores zero and sets the fail bit, the third local is left as it
    was, and the text from the comma on stays unread. *)
Theorem own_output_is_not_read_back :
  forall (A B : Vector3D int) (x0 y0 z0 : int),
    Forall3D Int.in_range A ->
    operator_in (istream_of classic_space (operator_out [] A)) B x0 y0 z0
    = (mk_istream (separator ++ put_int (y A) ++ separator ++ put_int (z A))
                  true false classic_space,
       mkVector3D (x A) 0 z0).
Proof.
  intros [a b c] B x0 y0 z0 (Ha & Hb & Hc). cbn [x y z m_x m_y m_z] in *.
  rewrite StreamFacts.operator_out_int. cbn [app x y z m_x m_y m_z].
  unfold operator_in, istream_of. cbn [stream_extract Streamable_int].
  pose proof (StreamFacts.extract_put_int classic_space []
                (separator ++ put_int b ++ separator ++ put_int c) a x0
                StreamFacts.keeps_numbers_classic (Forall_nil _) Ha) as E1.
  cbn [app] in E1. rewrite E1 by reflexivity.
  change (at_end (separator ++ put_int b ++ separator ++ put_int c)) with false.
  change (separator ++ put_int b ++ separator ++ put_int c)
    with (comma :: blank :: put_int b ++ separator ++ put_int c).
  rewrite StreamEdge.extract_at_comma.
  rewrite StreamEdge.extract_not_good by reflexivity.
  destruct B. reflexivity.
Qed.

Lemma own_output_is_not_read_back_witness :
  let A : Vector3D int := mkVector3D 12 (-7) 5 in
  operator_in (istream_of classic_space (operator_out [] A)) (mkVector3D 1 2 3) 40 50 60
  = (mk_istream (text_of ", -7, 5") true false classic_space, mkVector3D 12 0 60).
Proof.
  apply (own_output_is_not_read_back (mkVector3D 12 (-7) 5) (mkVector3D 1 2 3) 40 50 60).
  unfold Forall3D, Int.in_range; vm_compute; intuition discriminate.
Defined.

(** X21: the input operator reads three written [int]s whatever white space
    comes before each of them, provided the second and the third are
    separated from what precedes; it stops after the third, leaves what
    follows unread, reports no failure, and sets eof exactly when nothing
    follows. *)
Theorem operator_in_skips_white_space :
  forall (sp : ascii -> bool) (w1 w2 w3 rest : list ascii)
         (a b c : int) (B : Vector3D int) (x0 y0 z0 : int),
    keeps_numbers sp ->
    Forall (fun k => sp k = true) w1 ->
    Forall (fun k => sp k = true) w2 -> w2 <> [] ->
    Forall (fun k => sp k = true) w3 -> w3 <> [] ->
    Int.in_range a -> Int.in_range b -> Int.in_range c ->
    ends_field rest ->
    operator_in
      (istream_of sp (w1 ++ put_int a ++ w2 ++ put_int b ++ w3 ++ put_int c ++ rest))
      B x0 y0 z0
    = (mk_istream rest false (at_end rest) sp, mkVector3D a b c).
Proof.
  intros sp w1 w2 w3 rest a b c B x0 y0 z0 Hsp Hw1 Hw2 Hn2 Hw3 Hn3 Ha Hb Hc Hrest.
  unfold operator_in, istream_of. cbn [stream_extract Streamable_int].
  destruct (StreamEdge.spaces_end_field sp w2 (put_int b ++ w3 ++ put_int c ++ rest)
              Hsp Hw2 Hn2) as [Hend2 Hat2].
  destruct (StreamEdge.spaces_end_field sp w3 (put_int c ++ rest) Hsp Hw3 Hn3)
    as [Hend3 Hat3].
  rewrite (StreamFacts.extract_put_int sp w1 _ a x0 Hsp Hw1 Ha Hend2), Hat2.
  rewrite (StreamFacts.extract_put_int sp w2 _ b y0 Hsp Hw2 Hb Hend3), Hat3.
  rewrite (StreamFacts.extract_put_int sp w3 _ c z0 Hsp Hw3 Hc Hrest).
  destruct B. reflexivity.
Qed.

Lemma operator_in_skips_white_space_witness :
  let newline := ascii_of_nat 10 in
  let tab := ascii_of_nat 9 in
  operator_in
    (istream_of classic_space
       ([blank; blank] ++ put_int 12 ++ [newline] ++ put_int (-7)
          ++ [tab; blank; tab] ++ put_int 5 ++ text_of " metres"))
    (mkVector3D 1 2 3 : Vector3D int) 40 50 60
  = (mk_istream (text_of " metres") false false classic_space,
     mkVector3D 12 (-7) 5).
Proof.
  apply (operator_in_skips_white_space classic_space
           [blank; blank] [ascii_of_nat 10] [ascii_of_nat 9; blank; ascii_of_nat 9]
           (text_of " metres") 12 (-7) 5 (mkVector3D 1 2 3) 40 50 60).
  - apply StreamFacts.keeps_numbers_classic.
  - repeat constructor.
  - repeat constructor.
  - discriminate.
  - repeat constructor.
  - discriminate.
  - unfold Int.in_range; vm_compute; intuition discriminate.
  - unfold Int.in_range; vm_compute; intuition discriminate.
  - unfold Int.in_range; vm_compute; intuition discriminate.
  - reflexivity.
Defined.

(** X22: on an input that holds nothing but white space, the empty input
    included, the input operator extracts nothing: fail and eof are set,
    and the vector is overwritten with the three locals as they were. *)
Theorem operator_in_on_blank_input :
  forall (sp : ascii -> bool) (w : list ascii) (A : Vector3D int) (x0 y0 z0 : int),
    Forall (fun k => sp k = true) w ->
    operator_in (istream_of sp w) A x0 y0 z0
    = (mk_istream [] true true sp, mkVector3D x0 y0 z0).
Proof.
  intros sp w A x0 y0 z0 Hw.
  unfold operator_in, istream_of. cbn [stream_extract Streamable_int].
  assert (E : extract_int (mk_istream w false false sp) x0
              = (mk_istream [] true true sp, x0)).
  { unfold extract_int. cbn [good failbit eofbit rdbuf isspace negb andb].
    now rewrite (StreamEdge.skipws_all sp w Hw). }
  rewrite E. rewrite !StreamEdge.extract_not_good by reflexivity.
  destruct A. reflexivity.
Qed.

Lemma operator_in_on_blank_input_witness :
  operator_in (istream_of classic_space [blank; ascii_of_nat 10; ascii_of_nat 9])
              (mkVector3D 1 2 3 : Vector3D int) 40 50 60
  = (mk_istream [] true true classic_space, mkVector3D 40 50 60).
Proof.
  apply (operator_in_on_blank_input classic_space
           [blank; ascii_of_nat 10; ascii_of_nat 9] (mkVector3D 1 2 3) 40 50 60).
  repeat constructor.
Defined.

(** X23: the output operator appends to what the stream holds and writes
    nothing else than digits, minus signs, commas and blanks: exactly two
    commas, no newline; two vectors written in a row follow each other with
    nothing in between. *)
Theorem operator_out_shape :
  forall (os : ostream) (A B : Vector3D int),
    operator_out os A = os ++ operator_out [] A /\
    forallb output_char (operator_out [] A) = true /\
    List.length (filter is_comma (operator_out [] A)) = 2%nat /\
    operator_out (operator_out os A) B
    = os ++ operator_out [] A ++ operator_out [] B.
Proof.
  intros os A B.
  assert (Happ : forall (o : ostream) (V : Vector3D int),
             operator_out o V = o ++ operator_out [] V).
  { intros o V. now rewrite !StreamFacts.operator_out_int. }
  split; [apply Happ |]. split; [| split].
  - rewrite StreamFacts.operator_out_int. cbn [app].
    rewrite !forallb_app, !StreamEdge.put_int_output_chars. reflexivity.
  - rewrite StreamFacts.operator_out_int. cbn [app].
    rewrite !filter_app, !StreamEdge.put_int_no_comma. reflexivity.
  - rewrite (Happ (operator_out os A) B), (Happ os A). now rewrite app_assoc.
Qed.

(** ** The unit vector of a vector without a finite module *)

Lemma div_by_infinity (a : double) (s : bool) :
  Double.is_zero (Double.div a (S754_infinity s)) = is_finite a /\
  Double.is_nan (Double.div a (S754_infinity s)) = negb (is_finite a).
Proof. destruct a; split; reflexivity. Qed.

Lemma div_by_nan (a : double) : Double.div a Double.nan = Double.nan.
Proof. now destruct a. Qed.

(** X24: when the module overflows to an infinity, [direction] returns no
    unit vector: a finite component becomes a zero and an infinite one a
    NaN; when the module is a NaN, every component of the result is a
    NaN. *)
Theorem direction_without_finite_module :
  forall A : Vector3D double,
    (Double.is_infinite (module A) = true ->
     Double.is_zero (x (direction A)) = is_finite (x A) /\
     Double.is_zero (y (direction A)) = is_finite (y A) /\
     Double.is_zero (z (direction A)) = is_finite (z A) /\
     Forall3D (fun d => Double.is_zero d = true \/ Double.is_nan d = true)
              (direction A)) /\
    (Double.is_nan (module A) = true ->
     direction A = mkVector3D Double.nan Double.nan Double.nan).
Proof.
  intros [a1 a2 a3]. unfold direction, operator_div_vs.
  cbn [x y z m_x m_y m_z div Divisible_double].
  split; intros Hm;
    destruct (module (mkVector3D a1 a2 a3)) as [s | s | | s m e];
    try discriminate.
  - destruct (div_by_infinity a1 s) as [Z1 N1], (div_by_infinity a2 s) as [Z2 N2],
             (div_by_infinity a3 s) as [Z3 N3].
    repeat split; try assumption; cbn [m_x m_y m_z].
    + rewrite Z1, N1. destruct (is_finite a1); auto.
    + rewrite Z2, N2. destruct (is_finite a2); auto.
    + rewrite Z3, N3. destruct (is_finite a3); auto.
  - now rewrite !div_by_nan.
Qed.

Lemma direction_without_finite_module_witness :
  let A := mkVector3D (Double.of_Z (2 ^ 600)) (Double.of_Z 1) Double.pos_inf in
  module A = Double.pos_inf /\
  Double.is_zero (x (direction A)) = true /\
  Double.is_zero (y (direction A)) = true /\
  Double.is_zero (z (direction A)) = false.
Proof.
  split; [vm_compute; reflexivity |].
  destruct (proj1 (direction_without_finite_module
                     (mkVector3D (Double.of_Z (2 ^ 600)) (Double.of_Z 1) Double.pos_inf))
                  ltac:(vm_compute; reflexivity)) as (H1 & H2 & H3 & _).
  split; [exact H1 | split; [exact H2 | exact H3]].
Defined.
